(** * azeroth-map-app: the viewport, search and swipe logic of [js/app.js]

    A shallow embedding of the class [MapApp] of [src/js/app.js] and of the
    properties its specification states about it.

    - JavaScript numbers are IEEE binary64 values.  The code is written once,
      over an interface [JSNumber] of the arithmetic it uses, and read at two
      instances: exact rationals ([Q], the arithmetic the specification
      reasons in when it says "within floating-point tolerance"), on which
      the properties are proved, and the kernel's binary64 floats (what the
      browser computes), on which the scenarios are evaluated as well.
    - [this] is the record [MapApp]; a method is a function from the state
      before the call to the state after it.  The nodes of the document the
      methods write to (the container's transform, the marker elements, the
      tooltip, the filter buttons, the search box, the overlay clip) are the
      fields of the record [Dom]; the geometry the methods read from the
      browser (bounding boxes, client sizes) is the argument [Layout].
    - A method that can raise returns an [Outcome]: the state at its
      [return] or the state at its [throw].
    - A style property that a method writes from a number ([... px],
      [... %], the transform) is taken by the browser when the number is
      finite and refused, the property keeping its value, when it is NaN or
      an infinity.
    - Strings are sequences of code units below 256 (Latin-1), on which
      [toLowerCase], [trim] and the class [\s] are those of ECMAScript; on
      them lowering keeps the length, which it does not on every string
      (U+0130 is lowered to two code units).  The statements about the
      search test the length where the code does, after lowering and
      trimming.
    - The name [jumpToMarker] looks an element up by is pasted into a
      selector without escaping: the lookup is by equality of names only for
      a name without double quote, backslash, line break and NUL; for
      another name what the selector engine does is an argument.
    - What the fetch of [loadMarkersData] returned is an argument.
      [setupOverlayControls] (the sliders of the overlay image) is outside
      the model: the sliders write to nothing the other methods read.
    - Lines 414 and 438 of [app.js] write [var('--color-accent-hover')] and
      [var('--color-accent')] without quotes, which the language does not
      parse ([var] is a keyword): as it stands the file is refused as a
      whole.  The model is the script with these two values read as the
      style values they spell (see [startSwipe]). *)

From Stdlib Require Import QArith Qminmax Lqa ZArith Lia Bool List.
From Stdlib Require Import Ascii String.
From Stdlib Require Import Sorted Permutation.
From Stdlib Require Uint63 PrimFloat.
Import ListNotations.

Set Implicit Arguments.

(** * Part I: the program *)

(** ** Numbers *)

Declare Scope js_scope.
Delimit Scope js_scope with js.

(** The operations of the language on numbers, as far as [app.js] uses
    them.  [lit q] is the numeric literal of decimal value [q]; [less] is
    [<], [strict_eq] is [===] and [truthy] is the conversion to a boolean
    that [||] makes.  [is_finite a] tells whether [a] is neither NaN nor an
    infinity, and [is_finite_div a b] whether the quotient [a / b] is: a
    style property written from a number that is not finite is refused by
    the browser and keeps the value it had. *)
Class JSNumber (num : Type) : Type := {
  lit : Q -> num;
  add : num -> num -> num;
  sub : num -> num -> num;
  mul : num -> num -> num;
  div : num -> num -> num;
  neg : num -> num;
  less : num -> num -> bool;
  strict_eq : num -> num -> bool;
  Math_max : num -> num -> num;
  Math_min : num -> num -> num;
  truthy : num -> bool;
  is_finite : num -> bool;
  is_finite_div : num -> num -> bool
}.

Notation "a + b" := (add a b) : js_scope.
Notation "a - b" := (sub a b) : js_scope.
Notation "a * b" := (mul a b) : js_scope.
Notation "a / b" := (div a b) : js_scope.
Notation "- a" := (neg a) : js_scope.
Notation "a <? b" := (less a b) (at level 70, no associativity) : js_scope.
Notation "a >? b" := (less b a) (at level 70, no associativity) : js_scope.
Notation "a === b" := (strict_eq a b) (at level 70, no associativity) : js_scope.

(** *** Exact rationals

    Every rational is finite; a quotient is one when the divisor is not
    zero ([Qdiv] by zero is 0, where the language gives NaN or an infinity:
    [is_finite_div] is what tells them apart).  The other divisors of
    [app.js] are the literals 2 and 100 and a scale of at least 1. *)

Definition Qltb (a b : Q) : bool :=
  match Qcompare a b with Lt => true | _ => false end.

#[export] Instance Q_number : JSNumber Q := {|
  lit := fun q => q;
  add := Qplus;
  sub := Qminus;
  mul := Qmult;
  div := Qdiv;
  neg := Qopp;
  less := Qltb;
  strict_eq := Qeq_bool;
  Math_max := Qmax;
  Math_min := Qmin;
  truthy := fun a => negb (Qeq_bool a 0);
  is_finite := fun _ => true;
  is_finite_div := fun _ b => negb (Qeq_bool b 0)
|}.

(** *** Binary64 *)

Module Binary64.

Definition of_Z (z : Z) : PrimFloat.float :=
  match z with
  | Z0 => PrimFloat.zero
  | Zpos _ => PrimFloat.of_uint63 (Uint63.of_Z z)
  | Zneg _ => PrimFloat.opp (PrimFloat.of_uint63 (Uint63.of_Z (Z.opp z)))
  end.

(** A decimal literal denotes the double nearest to its value; for the
    literals of [app.js], whose numerator and denominator are doubles, that
    is their correctly rounded quotient. *)
Definition of_Q (q : Q) : PrimFloat.float :=
  PrimFloat.div (of_Z (Qnum q)) (of_Z (Zpos (Qden q))).

(** [Math.max] and [Math.min]: NaN when an argument is NaN, and [+0] is
    larger than [-0]. *)
Definition max (a b : PrimFloat.float) : PrimFloat.float :=
  if PrimFloat.is_nan a || PrimFloat.is_nan b then PrimFloat.nan
  else if PrimFloat.ltb a b then b
  else if PrimFloat.ltb b a then a
  else if PrimFloat.get_sign a then b else a.

Definition min (a b : PrimFloat.float) : PrimFloat.float :=
  if PrimFloat.is_nan a || PrimFloat.is_nan b then PrimFloat.nan
  else if PrimFloat.ltb a b then a
  else if PrimFloat.ltb b a then b
  else if PrimFloat.get_sign a then a else b.

(** [ToBoolean]: [+0], [-0] and NaN are false. *)
Definition to_boolean (a : PrimFloat.float) : bool :=
  negb (PrimFloat.is_zero a || PrimFloat.is_nan a).

End Binary64.

#[export] Instance float_number : JSNumber PrimFloat.float := {|
  lit := Binary64.of_Q;
  add := PrimFloat.add;
  sub := PrimFloat.sub;
  mul := PrimFloat.mul;
  div := PrimFloat.div;
  neg := PrimFloat.opp;
  less := PrimFloat.ltb;
  strict_eq := PrimFloat.eqb;
  Math_max := Binary64.max;
  Math_min := Binary64.min;
  truthy := Binary64.to_boolean;
  is_finite := PrimFloat.is_finite;
  is_finite_div := fun a b => PrimFloat.is_finite (PrimFloat.div a b)
|}.

(** ** Strings *)

Module JSString.

Local Open Scope string_scope.

(** [String.prototype.toLowerCase] on code units below 256: [A]-[Z] and
    the Latin-1 capitals U+00C0-U+00DE (U+00D7, the multiplication sign,
    apart) move up by 32.  On these strings the lowered text has the length
    of the text; beyond them it can be longer (U+0130 gives two code
    units), which is why the length test of the search is stated on the
    lowered text. *)
Definition lower_unit (c : ascii) : ascii :=
  let n := nat_of_ascii c in
  if ((65 <=? n) && (n <=? 90)
      || (192 <=? n) && (n <=? 222) && negb (n =? 215))%nat
  then ascii_of_nat (n + 32) else c.

Fixpoint toLowerCase (s : string) : string :=
  match s with
  | EmptyString => EmptyString
  | String c s' => String (lower_unit c) (toLowerCase s')
  end.

(** White space and line terminators below 256: TAB, LF, VT, FF, CR, SP
    and NBSP. *)
Definition is_space (c : ascii) : bool :=
  let n := nat_of_ascii c in
  ((9 <=? n) && (n <=? 13) || (n =? 32) || (n =? 160))%nat.

Fixpoint trimStart (s : string) : string :=
  match s with
  | EmptyString => EmptyString
  | String c s' => if is_space c then trimStart s' else s
  end.

(** [trimEnd] drops a character when it is a space and everything after
    it has been dropped. *)
Fixpoint trimEnd (s : string) : string :=
  match s with
  | EmptyString => EmptyString
  | String c s' =>
      match trimEnd s' with
      | EmptyString => if is_space c then EmptyString else String c EmptyString
      | t => String c t
      end
  end.

Definition trim (s : string) : string := trimEnd (trimStart s).

(** [s.replace(/\s/g, '')]. *)
Fixpoint removeSpaces (s : string) : string :=
  match s with
  | EmptyString => EmptyString
  | String c s' =>
      if is_space c then removeSpaces s' else String c (removeSpaces s')
  end.

Fixpoint startsWith (s q : string) {struct q} : bool :=
  match q, s with
  | EmptyString, _ => true
  | String _ _, EmptyString => false
  | String d q', String c s' => Ascii.eqb c d && startsWith s' q'
  end.

(** [s.includes(q)]: [q] occurs in [s] at some position. *)
Fixpoint includes (s q : string) : bool :=
  startsWith s q ||
  match s with
  | EmptyString => false
  | String _ s' => includes s' q
  end.

(** [Array.prototype.sort] without a comparison function, on strings:
    ascending by code units. *)
Fixpoint insert_sorted (x : string) (xs : list string) : list string :=
  match xs with
  | [] => [x]
  | y :: ys => if String.leb x y then x :: xs else y :: insert_sorted x ys
  end.

Definition sort (xs : list string) : list string :=
  fold_right insert_sorted [] xs.

(** [[...new Set(xs)]]: the distinct elements, in the order of their first
    occurrence. *)
Definition distinct (xs : list string) : list string :=
  fold_left
    (fun seen x =>
       if existsb (String.eqb x) seen then seen else (seen ++ [x])%list)
    xs [].

(** The code units that do not stand for themselves between the double
    quotes of a selector: the quote ends the string, the backslash starts an
    escape, LF, FF and CR are line breaks (the string is then a bad one) and
    NUL is replaced by U+FFFD. *)
Definition needs_escape (c : ascii) : bool :=
  let n := nat_of_ascii c in
  ((n =? 0) || (n =? 10) || (n =? 12) || (n =? 13) || (n =? 34)
   || (n =? 92))%nat.

(** A text that can be pasted as it is between the double quotes of a
    selector: the string the selector holds is then the text. *)
Fixpoint plain_in_selector (s : string) : bool :=
  match s with
  | EmptyString => true
  | String c s' => negb (needs_escape c) && plain_in_selector s'
  end.

(** [q] is a substring of [s]. *)
Definition Substring (q s : string) : Prop :=
  exists pre post, s = pre ++ q ++ post.

(** [q] occurs in [s] when case is ignored. *)
Definition ContainsIgnoringCase (s q : string) : Prop :=
  Substring (toLowerCase q) (toLowerCase s).

(** The same code unit, or the same letter [A]-[Z] in its two cases. *)
Definition same_letter (c d : ascii) : bool :=
  let n := nat_of_ascii c in
  let k := nat_of_ascii d in
  ((n =? k)
   || (65 <=? n) && (n <=? 90) && (k =? n + 32)
   || (65 <=? k) && (k <=? 90) && (n =? k + 32))%nat.

(** Two texts that differ in the case of letters [A]-[Z] at most. *)
Fixpoint same_ignoring_case (s t : string) : bool :=
  match s, t with
  | EmptyString, EmptyString => true
  | String c s', String d t' => same_letter c d && same_ignoring_case s' t'
  | _, _ => false
  end.

(** A text of white space only. *)
Fixpoint all_spaces (s : string) : bool :=
  match s with
  | EmptyString => true
  | String c s' => is_space c && all_spaces s'
  end.

End JSString.

(** ** The data model *)

Section Model.

Context {num : Type} {N : JSNumber num}.
Local Open Scope js_scope.

(** A record of [data/markers_data.json]. *)
Record MarkerRecord : Type := {
  nom : string;
  categorie : string;
  top : num;
  left : num;
  position_approx : string;
  lore_desc : string;
  image_url : string
}.

(** What [getBoundingClientRect] returns. *)
Record DOMRect : Type := {
  rect_left : num;
  rect_top : num;
  rect_width : num;
  rect_height : num
}.

(** A marker element of [#markers-container]; [marker_data] is the record
    its click listener holds.  [style_top] and [style_left] are percents,
    unset when the browser refused the value written. *)
Record MarkerElement : Type := {
  marker_data : MarkerRecord;
  data_name : string;
  data_category : string;
  className : string;
  style_top : option num;
  style_left : option num;
  class_active : bool
}.

(** What the browser reports: the viewport wrapper's box and client size,
    the box of the (transformed) map container and the box of a marker
    element.  [escaped_selector name] is what the selector engine makes of
    [[data-name="name"]] when [name] holds a code unit that does not stand
    for itself there ([JSString.needs_escape]): [None] when it rejects the
    selector, or else the test that tells which marker elements the selector
    matches (with an escape, the elements of another name). *)
Record Layout : Type := {
  mapWrapper_rect : DOMRect;
  clientWidth : num;
  clientHeight : num;
  mapContainer_rect : DOMRect;
  marker_rect : MarkerElement -> DOMRect;
  escaped_selector : string -> option (MarkerElement -> bool)
}.

(** The element [#tooltip] with its title, description and image. *)
Record Tooltip : Type := {
  tooltip_hidden : bool;
  tooltip_title : string;
  tooltip_desc : string;
  tooltip_img : string;
  tooltip_top : num;
  tooltip_left : num
}.

(** A button of [#filter-controls]. *)
Record FilterButton : Type := {
  button_text : string;
  dataset_filter : string;
  active_filter : bool
}.

(** An entry of [#search-results]; a click on it jumps to [item_marker]. *)
Record SearchItem : Type := {
  item_text : string;
  item_marker : MarkerRecord
}.

(** The part of the document the methods write to.  [transform] is the
    container's [translate(x px, y px) scale(s)]; [clip_percent] and
    [separator_left] are the overlay's left inset and the separator's
    position, unset until the first swipe; [separator_background] is the
    separator's inline background. *)
Record Dom : Type := {
  transform : num * num * num;
  grabbing : bool;
  markersContainer : list MarkerElement;
  tooltip : Tooltip;
  filterControls : list FilterButton;
  searchInput : string;
  searchResults : list SearchItem;
  isSwiping : bool;
  clip_percent : option num;
  separator_left : option num;
  separator_background : string
}.

(** The fields of [this]. *)
Record MapApp : Type := {
  scale : num;
  translateX : num;
  translateY : num;
  isDragging : bool;
  lastX : num;
  lastY : num;
  markersData : list MarkerRecord;
  activeMarker : option MarkerRecord;
  dom : Dom
}.

(** *** Assignments *)

Definition set_scale (v : num) (st : MapApp) : MapApp :=
  {| scale := v; translateX := translateX st; translateY := translateY st;
     isDragging := isDragging st; lastX := lastX st; lastY := lastY st;
     markersData := markersData st; activeMarker := activeMarker st;
     dom := dom st |}.

Definition set_translateX (v : num) (st : MapApp) : MapApp :=
  {| scale := scale st; translateX := v; translateY := translateY st;
     isDragging := isDragging st; lastX := lastX st; lastY := lastY st;
     markersData := markersData st; activeMarker := activeMarker st;
     dom := dom st |}.

Definition set_translateY (v : num) (st : MapApp) : MapApp :=
  {| scale := scale st; translateX := translateX st; translateY := v;
     isDragging := isDragging st; lastX := lastX st; lastY := lastY st;
     markersData := markersData st; activeMarker := activeMarker st;
     dom := dom st |}.

Definition set_isDragging (v : bool) (st : MapApp) : MapApp :=
  {| scale := scale st; translateX := translateX st;
     translateY := translateY st;
     isDragging := v; lastX := lastX st; lastY := lastY st;
     markersData := markersData st; activeMarker := activeMarker st;
     dom := dom st |}.

Definition set_lastX (v : num) (st : MapApp) : MapApp :=
  {| scale := scale st; translateX := translateX st;
     translateY := translateY st;
     isDragging := isDragging st; lastX := v; lastY := lastY st;
     markersData := markersData st; activeMarker := activeMarker st;
     dom := dom st |}.

Definition set_lastY (v : num) (st : MapApp) : MapApp :=
  {| scale := scale st; translateX := translateX st;
     translateY := translateY st;
     isDragging := isDragging st; lastX := lastX st; lastY := v;
     markersData := markersData st; activeMarker := activeMarker st;
     dom := dom st |}.

Definition set_activeMarker (v : option MarkerRecord) (st : MapApp) : MapApp :=
  {| scale := scale st; translateX := translateX st;
     translateY := translateY st;
     isDragging := isDragging st; lastX := lastX st; lastY := lastY st;
     markersData := markersData st; activeMarker := v;
     dom := dom st |}.

Definition set_dom (v : Dom) (st : MapApp) : MapApp :=
  {| scale := scale st; translateX := translateX st;
     translateY := translateY st;
     isDragging := isDragging st; lastX := lastX st; lastY := lastY st;
     markersData := markersData st; activeMarker := activeMarker st;
     dom := v |}.

Definition set_transform (v : num * num * num) (d : Dom) : Dom :=
  {| transform := v; grabbing := grabbing d;
     markersContainer := markersContainer d; tooltip := tooltip d;
     filterControls := filterControls d; searchInput := searchInput d;
     searchResults := searchResults d; isSwiping := isSwiping d;
     clip_percent := clip_percent d; separator_left := separator_left d;
     separator_background := separator_background d |}.

Definition set_grabbing (v : bool) (d : Dom) : Dom :=
  {| transform := transform d; grabbing := v;
     markersContainer := markersContainer d; tooltip := tooltip d;
     filterControls := filterControls d; searchInput := searchInput d;
     searchResults := searchResults d; isSwiping := isSwiping d;
     clip_percent := clip_percent d; separator_left := separator_left d;
     separator_background := separator_background d |}.

Definition set_markersContainer (v : list MarkerElement) (d : Dom) : Dom :=
  {| transform := transform d; grabbing := grabbing d;
     markersContainer := v; tooltip := tooltip d;
     filterControls := filterControls d; searchInput := searchInput d;
     searchResults := searchResults d; isSwiping := isSwiping d;
     clip_percent := clip_percent d; separator_left := separator_left d;
     separator_background := separator_background d |}.

Definition set_tooltip (v : Tooltip) (d : Dom) : Dom :=
  {| transform := transform d; grabbing := grabbing d;
     markersContainer := markersContainer d; tooltip := v;
     filterControls := filterControls d; searchInput := searchInput d;
     searchResults := searchResults d; isSwiping := isSwiping d;
     clip_percent := clip_percent d; separator_left := separator_left d;
     separator_background := separator_background d |}.

Definition set_filterControls (v : list FilterButton) (d : Dom) : Dom :=
  {| transform := transform d; grabbing := grabbing d;
     markersContainer := markersContainer d; tooltip := tooltip d;
     filterControls := v; searchInput := searchInput d;
     searchResults := searchResults d; isSwiping := isSwiping d;
     clip_percent := clip_percent d; separator_left := separator_left d;
     separator_background := separator_background d |}.

Definition set_searchInput (v : string) (d : Dom) : Dom :=
  {| transform := transform d; grabbing := grabbing d;
     markersContainer := markersContainer d; tooltip := tooltip d;
     filterControls := filterControls d; searchInput := v;
     searchResults := searchResults d; isSwiping := isSwiping d;
     clip_percent := clip_percent d; separator_left := separator_left d;
     separator_background := separator_background d |}.

Definition set_searchResults (v : list SearchItem) (d : Dom) : Dom :=
  {| transform := transform d; grabbing := grabbing d;
     markersContainer := markersContainer d; tooltip := tooltip d;
     filterControls := filterControls d; searchInput := searchInput d;
     searchResults := v; isSwiping := isSwiping d;
     clip_percent := clip_percent d; separator_left := separator_left d;
     separator_background := separator_background d |}.

Definition set_isSwiping (v : bool) (d : Dom) : Dom :=
  {| transform := transform d; grabbing := grabbing d;
     markersContainer := markersContainer d; tooltip := tooltip d;
     filterControls := filterControls d; searchInput := searchInput d;
     searchResults := searchResults d; isSwiping := v;
     clip_percent := clip_percent d; separator_left := separator_left d;
     separator_background := separator_background d |}.

Definition set_swipe (p : num) (d : Dom) : Dom :=
  {| transform := transform d; grabbing := grabbing d;
     markersContainer := markersContainer d; tooltip := tooltip d;
     filterControls := filterControls d; searchInput := searchInput d;
     searchResults := searchResults d; isSwiping := isSwiping d;
     clip_percent := Some p; separator_left := Some p;
     separator_background := separator_background d |}.

Definition set_separator_background (v : string) (d : Dom) : Dom :=
  {| transform := transform d; grabbing := grabbing d;
     markersContainer := markersContainer d; tooltip := tooltip d;
     filterControls := filterControls d; searchInput := searchInput d;
     searchResults := searchResults d; isSwiping := isSwiping d;
     clip_percent := clip_percent d; separator_left := separator_left d;
     separator_background := v |}.

(** Apply [f] to the document of [st]. *)
Definition on_dom (f : Dom -> Dom) (st : MapApp) : MapApp :=
  set_dom (f (dom st)) st.

(** *** Events *)

Record Touch : Type := {
  touch_clientX : num;
  touch_clientY : num
}.

(** A mouse event carries [clientX] and [clientY] and no [touches]; a
    touch event carries [touches] and no [clientX].  [target_id] is
    [e.target.id]. *)
Inductive PointerEvent : Type :=
| MouseEvent (target_id : string) (clientX clientY : num)
| TouchEvent (target_id : string) (touches : list Touch).

Record WheelEvent : Type := {
  deltaY : num;
  wheel_clientX : num;
  wheel_clientY : num
}.

Definition target_id (e : PointerEvent) : string :=
  match e with
  | MouseEvent id _ _ => id
  | TouchEvent id _ => id
  end.

(** [e.clientX || e.touches[0].clientX].  On a mouse event whose [clientX]
    is falsy the right operand reads [touches[0]] of [undefined], and on a
    touch event with no touch it reads [clientX] of [undefined]: a
    [TypeError], [None] here. *)
Definition clientX_or_touch (e : PointerEvent) : option num :=
  match e with
  | MouseEvent _ x _ => if truthy x then Some x else None
  | TouchEvent _ ts =>
      match ts with
      | t :: _ => Some (touch_clientX t)
      | [] => None
      end
  end.

(** [e.clientY || e.touches[0].clientY]. *)
Definition clientY_or_touch (e : PointerEvent) : option num :=
  match e with
  | MouseEvent _ _ y => if truthy y then Some y else None
  | TouchEvent _ ts =>
      match ts with
      | t :: _ => Some (touch_clientY t)
      | [] => None
      end
  end.

(** *** Outcomes *)

Inductive Outcome : Type :=
| Returned (st : MapApp)
| Thrown (st : MapApp).

(** The state a handler leaves behind, however it ended. *)
Definition state_of (o : Outcome) : MapApp :=
  match o with
  | Returned st => st
  | Thrown st => st
  end.

(** *** Rendering *)

(** A style property written from the number [v] with a unit ([v px],
    [v %]): the browser takes the value when [v] is finite and refuses
    [NaNpx] or [Infinitypx], which leaves the property as it was, [old]. *)
Definition style_number (v old : num) : num :=
  if is_finite v then v else old.

(** The same on an element that has just been created, whose property is
    unset. *)
Definition style_number_new (v : num) : option num :=
  if is_finite v then Some v else None.

(** [renderMap]: the container's transform is written as
    [translate(translateX px, translateY px) scale(scale)], one assignment
    that the browser refuses as a whole when one of the three numbers is not
    finite. *)
Definition renderMap (st : MapApp) : MapApp :=
  if is_finite (translateX st) && is_finite (translateY st)
     && is_finite (scale st)
  then on_dom (set_transform (translateX st, translateY st, scale st)) st
  else st.

(** The element [renderMarkers] creates for a record; it is of class
    [active] when there is an active marker of that name. *)
Definition createMarker (active : option MarkerRecord)
    (markerData : MarkerRecord) : MarkerElement :=
  {| marker_data := markerData;
     data_name := nom markerData;
     data_category := categorie markerData;
     className :=
       ("map-marker cat-" ++ JSString.removeSpaces (categorie markerData))%string;
     style_top := style_number_new (top markerData);
     style_left := style_number_new (left markerData);
     class_active :=
       match active with
       | Some a => String.eqb (nom a) (nom markerData)
       | None => false
       end |}.

Definition isVisible (filterCategory : string) (markerData : MarkerRecord)
    : bool :=
  String.eqb filterCategory "all"
  || String.eqb (categorie markerData) filterCategory.

(** [container.appendChild(make(x))] for each [x] of a list, in order. *)
Definition forEach_appendChild {A B : Type} (make : A -> B) (xs : list A)
    (container : list B) : list B :=
  fold_left (fun c x => c ++ [make x]) xs container.

(** [renderMarkers(filterCategory)]: the container is emptied and gets an
    element for each visible record, in the order of [markersData]. *)
Definition renderMarkers (filterCategory : string) (st : MapApp) : MapApp :=
  let st := on_dom (set_markersContainer []) st in
  on_dom (fun d =>
    set_markersContainer
      (forEach_appendChild (createMarker (activeMarker st))
         (filter (isVisible filterCategory) (markersData st))
         (markersContainer d)) d) st.

(** *** The tooltip *)

Definition hideTooltip (st : MapApp) : MapApp :=
  on_dom (fun d =>
    set_tooltip
      {| tooltip_hidden := true;
         tooltip_title := tooltip_title (tooltip d);
         tooltip_desc := tooltip_desc (tooltip d);
         tooltip_img := tooltip_img (tooltip d);
         tooltip_top := tooltip_top (tooltip d);
         tooltip_left := tooltip_left (tooltip d) |} d) st.

(** What [document.querySelector] gives: a [SyntaxError] for a selector
    the engine rejects, or else the first element that matches, [null] when
    there is none. *)
Inductive Selection : Type :=
| SyntaxError
| Selected (element : option MarkerElement).

(** [document.querySelector('[data-name="' + name + '"]')]; the name is
    pasted into the selector as it is.  For a name that is plain there the
    selector holds the name, and the first marker element of that name is
    selected (marker elements are the only ones that carry a [data-name]).
    For another name the selector is not the one that was meant (a quote
    ends the string early, a line break spoils it, a backslash escapes what
    follows it): the engine rejects it, or selects by the test
    [escaped_selector] gives.  The marker elements are the candidates of
    the lookup in either case; the rest of the page is not in [Dom]. *)
Definition querySelector_data_name (name : string) (L : Layout)
    (st : MapApp) : Selection :=
  if JSString.plain_in_selector name then
    Selected (find (fun el => String.eqb (data_name el) name)
                (markersContainer (dom st)))
  else
    match escaped_selector L name with
    | None => SyntaxError
    | Some matches => Selected (find matches (markersContainer (dom st)))
    end.

(** [showTooltip(data, markerElement)]; on [null] the first statement
    raises.  The position is written as [topPos px] and [leftPos px]. *)
Definition showTooltip (data : MarkerRecord)
    (markerElement : option MarkerElement) (L : Layout) (st : MapApp)
    : Outcome :=
  match markerElement with
  | None => Thrown st
  | Some el =>
      let rect := marker_rect L el in
      let mapRect := mapWrapper_rect L in
      let topPos := rect_top rect - rect_top mapRect + rect_height rect + lit 10 in
      let leftPos := rect_left rect - rect_left mapRect + rect_width rect + lit 10 in
      let leftPos :=
        if leftPos + lit 300 >? rect_width mapRect
        then rect_left rect - rect_left mapRect - lit 300 - lit 10
        else leftPos in
      Returned
        (on_dom (set_tooltip
           {| tooltip_hidden := false;
              tooltip_title := nom data;
              tooltip_desc := lore_desc data;
              tooltip_img := image_url data;
              tooltip_top := style_number topPos (tooltip_top (tooltip (dom st)));
              tooltip_left :=
                style_number leftPos (tooltip_left (tooltip (dom st))) |}) st)
  end.

(** ** Pan and zoom *)

(** [handlePanStart(e)]: [isDragging] is set before the position is read. *)
Definition handlePanStart (e : PointerEvent) (st : MapApp) : Outcome :=
  if String.eqb (target_id e) "overlay-separator" then Returned st
  else
    let st := set_isDragging true st in
    match clientX_or_touch e with
    | None => Thrown st
    | Some x =>
        let st := set_lastX x st in
        match clientY_or_touch e with
        | None => Thrown st
        | Some y =>
            let st := set_lastY y st in
            Returned (on_dom (set_grabbing true) st)
        end
    end.

(** [handlePanMove(e)]: the translation moves by the pointer's step; the map
    is rendered and the tooltip hidden. *)
Definition handlePanMove (e : PointerEvent) (st : MapApp) : Outcome :=
  if negb (isDragging st) then Returned st
  else
    match clientX_or_touch e with
    | None => Thrown st
    | Some clientX =>
        match clientY_or_touch e with
        | None => Thrown st
        | Some clientY =>
            let dx := clientX - lastX st in
            let dy := clientY - lastY st in
            let st := set_translateX (translateX st + dx) st in
            let st := set_translateY (translateY st + dy) st in
            let st := set_lastX clientX st in
            let st := set_lastY clientY st in
            let st := renderMap st in
            Returned (hideTooltip st)
        end
    end.

(** [handlePanEnd]. *)
Definition handlePanEnd (st : MapApp) : MapApp :=
  let st := set_isDragging false st in
  on_dom (set_grabbing false) st.

(** [clampTranslations]: above scale 1 the translation is bounded to
    [[-max, 0]] on each axis, otherwise it is set to (0,0). *)
Definition clampTranslations (L : Layout) (st : MapApp) : MapApp :=
  let mapWidth := clientWidth L * scale st in
  let mapHeight := clientHeight L * scale st in
  let viewWidth := clientWidth L in
  let viewHeight := clientHeight L in
  let maxX := mapWidth - viewWidth in
  let maxY := mapHeight - viewHeight in
  if scale st >? lit 1 then
    let st :=
      set_translateX
        (Math_max (Math_min (translateX st) (lit 0)) (- maxX)) st in
    set_translateY
      (Math_max (Math_min (translateY st) (lit 0)) (- maxY)) st
  else
    let st := set_translateX (lit 0) st in
    set_translateY (lit 0) st.

(** [handleZoom(e)], the wheel listener. *)
Definition handleZoom (e : WheelEvent) (L : Layout) (st : MapApp) : MapApp :=
  let zoomFactor := if deltaY e <? lit 0 then lit 1.1 else lit 0.9 in
  let newScale :=
    Math_max (lit 1.0) (Math_min (lit 4.0) (scale st * zoomFactor)) in
  if newScale === scale st then st
  else
    let rect := mapContainer_rect L in
    let cursorX := wheel_clientX e - rect_left rect in
    let cursorY := wheel_clientY e - rect_top rect in
    let st :=
      set_translateX
        (translateX st - cursorX * (newScale - scale st) / newScale) st in
    let st :=
      set_translateY
        (translateY st - cursorY * (newScale - scale st) / newScale) st in
    let st := set_scale newScale st in
    let st := clampTranslations L st in
    renderMap st.

(** [zoom(direction)], the [+] and [-] buttons. *)
Definition zoom (direction : string) (L : Layout) (st : MapApp) : MapApp :=
  let factor := if String.eqb direction "in" then lit 1.25 else lit 0.8 in
  let newScale :=
    Math_max (lit 1.0) (Math_min (lit 4.0) (scale st * factor)) in
  if newScale === scale st then st
  else
    let rect := mapWrapper_rect L in
    let centerX := rect_width rect / lit 2 in
    let centerY := rect_height rect / lit 2 in
    let st :=
      set_translateX
        (translateX st - centerX * (newScale - scale st) / newScale) st in
    let st :=
      set_translateY
        (translateY st - centerY * (newScale - scale st) / newScale) st in
    let st := set_scale newScale st in
    let st := clampTranslations L st in
    renderMap st.

(** [getActiveFilter]: the filter of the first button of class
    [active-filter], ['all'] when there is none. *)
Definition getActiveFilter (st : MapApp) : string :=
  match find active_filter (filterControls (dom st)) with
  | Some activeBtn => dataset_filter activeBtn
  | None => "all"
  end.

(** [resetView]. *)
Definition resetView (st : MapApp) : MapApp :=
  let st := set_scale (lit 1.0) st in
  let st := set_translateX (lit 0) st in
  let st := set_translateY (lit 0) st in
  let st := set_activeMarker None st in
  let st := hideTooltip st in
  let st := renderMap st in
  renderMarkers (getActiveFilter st) st.


(** ** Search and jump *)

(** The entry [handleSearchInput] creates for a result. *)
Definition createSearchItem (marker : MarkerRecord) : SearchItem :=
  {| item_text :=
       (nom marker ++ " (" ++ position_approx marker ++ ")")%string;
     item_marker := marker |}.

(** The test of the [filter] call of [handleSearchInput]. *)
Definition matchesQuery (query : string) (marker : MarkerRecord) : bool :=
  JSString.includes (JSString.toLowerCase (nom marker)) query
  || JSString.includes (JSString.toLowerCase (position_approx marker)) query.

(** [handleSearchInput], the listener of the search box. *)
Definition handleSearchInput (st : MapApp) : MapApp :=
  let query :=
    JSString.trim (JSString.toLowerCase (searchInput (dom st))) in
  let st := on_dom (set_searchResults []) st in
  if (String.length query <? 2)%nat then st
  else
    let results := filter (matchesQuery query) (markersData st) in
    on_dom (fun d =>
      set_searchResults
        (forEach_appendChild createSearchItem results (searchResults d)) d)
      st.

(** [jumpToMarker(markerData)].  The element is looked up before
    [showTooltip] is called; an exception of either ends the method. *)
Definition jumpToMarker (markerData : MarkerRecord) (L : Layout)
    (st : MapApp) : Outcome :=
  let st := set_activeMarker (Some markerData) st in
  let st := renderMarkers (categorie markerData) st in
  match querySelector_data_name (nom markerData) L st with
  | SyntaxError => Thrown st
  | Selected markerElement =>
  match showTooltip markerData markerElement L st with
  | Thrown st => Thrown st
  | Returned st =>
      let targetScale := lit 2.0 in
      let mapRect := mapWrapper_rect L in
      let viewCenterX := rect_width mapRect / lit 2 in
      let viewCenterY := rect_height mapRect / lit 2 in
      let markerX_norm := left markerData / lit 100 * clientWidth L in
      let markerY_norm := top markerData / lit 100 * clientHeight L in
      let newTranslateX := viewCenterX - (markerX_norm * targetScale) in
      let newTranslateY := viewCenterY - (markerY_norm * targetScale) in
      let st := set_scale targetScale st in
      let st := set_translateX newTranslateX st in
      let st := set_translateY newTranslateY st in
      let st := on_dom (set_searchInput "") st in
      let st := on_dom (set_searchResults []) st in
      Returned (renderMap st)
  end
  end.

(** ** Filters *)

(** The class [active-filter] is taken from every button and given to the
    clicked one, the [clicked]-th of [#filter-controls]. *)
Definition activate (clicked : nat) (buttons : list FilterButton)
    : list FilterButton :=
  let cleared :=
    map (fun btn =>
           {| button_text := button_text btn;
              dataset_filter := dataset_filter btn;
              active_filter := false |}) buttons in
  match nth_error cleared clicked with
  | None => cleared
  | Some btn =>
      firstn clicked cleared
      ++ {| button_text := button_text btn;
            dataset_filter := dataset_filter btn;
            active_filter := true |}
      :: skipn (S clicked) cleared
  end.

(** [handleFilterClick(clickedButton, category)]. *)
Definition handleFilterClick (clickedButton : nat) (category : string)
    (st : MapApp) : MapApp :=
  let st := on_dom (fun d =>
              set_filterControls (activate clickedButton (filterControls d)) d)
              st in
  let st := set_activeMarker None st in
  let st := hideTooltip st in
  renderMarkers category st.

(** ** The overlay swipe

    The closures of [setupSwipe]; their variable [isSwiping] is the field
    of that name.

    The colour of the separator is written in the source as
    [this.separator.style.background = var('--color-accent-hover')] (line
    414) and [... = var('--color-accent')] (line 438), without quotes
    around the value.  [var] is a keyword of the language and these two
    lines are not expressions of it: the file as it stands is refused by
    the parser, and no method of it ever runs.  The model is the script with
    these two values read as the style values they spell,
    ['var(--color-accent-hover)'] and ['var(--color-accent)']; every
    statement about the behaviour of the application is about that
    script. *)

Definition startSwipe (st : MapApp) : MapApp :=
  let st := on_dom (set_isSwiping true) st in
  let st := on_dom (set_separator_background "var(--color-accent-hover)") st in
  on_dom (set_grabbing false) st.

(** The percent [onSwipe] computes from the horizontal position
    [clientX]. *)
Definition swipePercent (L : Layout) (clientX : num) : num :=
  let mapRect := mapWrapper_rect L in
  let newX := clientX - rect_left mapRect in
  let newX := Math_max (lit 0) (Math_min (rect_width mapRect) newX) in
  (newX / rect_width mapRect) * lit 100.

(** Whether that percent is a finite number: it is not when the wrapper
    has no width, where the quotient is 0/0. *)
Definition swipePercent_is_finite (L : Layout) (clientX : num) : bool :=
  let mapRect := mapWrapper_rect L in
  let newX := clientX - rect_left mapRect in
  let newX := Math_max (lit 0) (Math_min (rect_width mapRect) newX) in
  is_finite_div newX (rect_width mapRect)
  && is_finite (swipePercent L clientX).

(** [onSwipe(e)]: the overlay's clip is written as
    [inset(0 0 0 percent %)] and the separator's position as [percent %];
    the browser refuses both when the percent is not finite. *)
Definition onSwipe (e : PointerEvent) (L : Layout) (st : MapApp) : Outcome :=
  if negb (isSwiping (dom st)) then Returned st
  else
    match clientX_or_touch e with
    | None => Thrown st
    | Some clientX =>
        let percent := swipePercent L clientX in
        if swipePercent_is_finite L clientX
        then Returned (on_dom (set_swipe percent) st)
        else Returned st
    end.

Definition endSwipe (st : MapApp) : MapApp :=
  let st := on_dom (set_isSwiping false) st in
  on_dom (set_separator_background "var(--color-accent)") st.

(** ** Start-up *)

(** [createFilterButton(text, category)]. *)
Definition createFilterButton (text category : string) : FilterButton :=
  {| button_text := text; dataset_filter := category; active_filter := false |}.

(** [createFilterButtons]: the button ['Tout'] of filter ['all'], selected,
    then a button for each category of the records, in ascending order. *)
Definition createFilterButtons (st : MapApp) : MapApp :=
  let categories :=
    JSString.sort (JSString.distinct (map categorie (markersData st))) in
  let allBtn := createFilterButton "Tout" "all" in
  let allBtn :=
    {| button_text := button_text allBtn;
       dataset_filter := dataset_filter allBtn;
       active_filter := true |} in
  let st := on_dom (fun d =>
              set_filterControls (filterControls d ++ [allBtn]) d) st in
  on_dom (fun d =>
    set_filterControls
      (forEach_appendChild (fun cat => createFilterButton cat cat) categories
         (filterControls d)) d) st.

(** The fields as the constructor sets them, then [init] with the records
    [loadMarkersData] has fetched: the map is rendered and the filter
    buttons are created in the document [d]. *)
Definition new_MapApp (records : list MarkerRecord) (d : Dom) : MapApp :=
  let st :=
    {| scale := lit 1.0;
       translateX := lit 0;
       translateY := lit 0;
       isDragging := false;
       lastX := lit 0;
       lastY := lit 0;
       markersData := records;
       activeMarker := None;
       dom := d |} in
  let st := renderMap st in
  createFilterButtons st.

(** ** Sessions *)

(** What the user does.  An action is a call of one listener that
    [setupEventListeners], [setupSwipe], [renderMarkers],
    [handleSearchInput] or [createFilterButton] registers; an event that
    several listeners hear is the sequence of their actions.  A marker and a
    filter button are given by their position in their container. *)
Inductive Action : Type :=
| PanStart (e : PointerEvent)
| PanMove (e : PointerEvent)
| PanEnd
| Wheel (e : WheelEvent)
| ZoomButton (direction : string)
| ResetView
| TooltipClose
| MarkerClick (marker : nat)
| SearchInput (value : string)
| JumpToMarker (markerData : MarkerRecord)
| FilterClick (clickedButton : nat) (category : string)
| SwipeStart
| Swipe (e : PointerEvent)
| SwipeEnd.

(** One action, under the geometry the browser reports during it.  An
    exception ends the listener and leaves the state as it is then. *)
Definition step (L : Layout) (a : Action) (st : MapApp) : MapApp :=
  match a with
  | PanStart e => state_of (handlePanStart e st)
  | PanMove e => state_of (handlePanMove e st)
  | PanEnd => handlePanEnd st
  | Wheel e => handleZoom e L st
  | ZoomButton direction => zoom direction L st
  | ResetView => resetView st
  | TooltipClose => hideTooltip st
  | MarkerClick marker =>
      match nth_error (markersContainer (dom st)) marker with
      | Some el => state_of (showTooltip (marker_data el) (Some el) L st)
      | None => st
      end
  | SearchInput value =>
      handleSearchInput (on_dom (set_searchInput value) st)
  | JumpToMarker markerData => state_of (jumpToMarker markerData L st)
  | FilterClick clickedButton category =>
      handleFilterClick clickedButton category st
  | SwipeStart => startSwipe st
  | Swipe e => state_of (onSwipe e L st)
  | SwipeEnd => endSwipe st
  end.

Fixpoint run (actions : list (Layout * Action)) (st : MapApp) : MapApp :=
  match actions with
  | [] => st
  | (L, a) :: rest => run rest (step L a st)
  end.

(** The records listed after the user has typed [value] in the search box,
    in the order of the list. *)
Definition search (st : MapApp) (value : string) : list MarkerRecord :=
  map item_marker
    (searchResults (dom (handleSearchInput (on_dom (set_searchInput value) st)))).

(** The viewport: scale and translation. *)
Definition viewport (st : MapApp) : num * num * num :=
  (scale st, translateX st, translateY st).

(** ** Where a point of the map is drawn *)

(** Modelled from the spec: the stylesheet [css/style.css], which fixes the
    origin of the container's transform, is not among the sources.  The
    specification's centring rule,
    [translate = viewCenter - markerPixelPos * targetScale], places the
    container point at [c] (pixels at scale 1) on the wrapper-local pixel
    [translate + scale * c], one axis at a time. *)
Definition screen_of (scale' translate c : num) : num :=
  translate + scale' * c.

(** The container point drawn [p] pixels from the edge of the container's
    box, along one axis: the point under the pivot [p] of a zoom. *)
Definition content_under (st : MapApp) (p : num) : num :=
  p / scale st.

(** ** Scenarios *)

(** A wrapper of [width] by [height] pixels at the top left corner of the
    page, without border, around a map container of box [container]; the
    selector engine rejects a name that would need escaping. *)
Definition wrapper_layout (width height : num) (container : DOMRect)
    : Layout :=
  {| mapWrapper_rect :=
       {| rect_left := lit 0; rect_top := lit 0;
          rect_width := width; rect_height := height |};
     clientWidth := width;
     clientHeight := height;
     mapContainer_rect := container;
     marker_rect := fun _ =>
       {| rect_left := lit 0; rect_top := lit 0;
          rect_width := lit 0; rect_height := lit 0 |};
     escaped_selector := fun _ => None |}.

(** The box of the container at scale 1 and translation (0,0). *)
Definition container_at_rest (width height : num) : DOMRect :=
  {| rect_left := lit 0; rect_top := lit 0;
     rect_width := width; rect_height := height |}.

Definition layout_1000x800 : Layout :=
  wrapper_layout (lit 1000) (lit 800) (container_at_rest (lit 1000) (lit 800)).

(** The same wrapper with its left edge 100 pixels into the page, as when a
    panel stands on its left. *)
Definition layout_inset_100 : Layout :=
  {| mapWrapper_rect :=
       {| rect_left := lit 100; rect_top := lit 0;
          rect_width := lit 1000; rect_height := lit 800 |};
     clientWidth := lit 1000;
     clientHeight := lit 800;
     mapContainer_rect :=
       {| rect_left := lit 100; rect_top := lit 0;
          rect_width := lit 1000; rect_height := lit 800 |};
     marker_rect := fun _ =>
       {| rect_left := lit 0; rect_top := lit 0;
          rect_width := lit 0; rect_height := lit 0 |};
     escaped_selector := fun _ => None |}.

(** The document before the application is constructed. *)
Definition blank_document : Dom :=
  {| transform := (lit 0, lit 0, lit 1);
     grabbing := false;
     markersContainer := [];
     tooltip :=
       {| tooltip_hidden := true; tooltip_title := ""; tooltip_desc := "";
          tooltip_img := ""; tooltip_top := lit 0; tooltip_left := lit 0 |};
     filterControls := [];
     searchInput := "";
     searchResults := [];
     isSwiping := false;
     clip_percent := None;
     separator_left := None;
     separator_background := "" |}.

Definition marker_at (name category : string) (top' left' : num)
    (position : string) : MarkerRecord :=
  {| nom := name; categorie := category; top := top'; left := left';
     position_approx := position; lore_desc := ""; image_url := "" |}.

Definition Ironforge : MarkerRecord :=
  marker_at "Ironforge" "Capitals" (lit 50) (lit 50) "Dun Morogh".

Definition Thelsamar : MarkerRecord :=
  marker_at "Thelsamar" "Towns" (lit 40) (lit 60)
    "near the Ironband Excavation".

Definition Origin : MarkerRecord :=
  marker_at "Origin" "Corners" (lit 0) (lit 0) "top left corner".

(** A record at the centre of the map whose name holds a double quote
    (code unit 34) between [Zul] and [Aman]: pasted into the selector it
    ends the string after [Zul], and what follows is no selector. *)
Definition Zul_Aman : MarkerRecord :=
  marker_at ("Zul" ++ String (ascii_of_nat 34) "Aman")%string "Raids"
    (lit 50) (lit 50) "Ghostlands".

(** A record whose [left] is 1e308 percent, 100 times the 17th power of
    1e18: a double, but in binary64 the translation of a jump to it
    overflows. *)
Definition Far : MarkerRecord :=
  marker_at "Far" "Corners" (lit 50)
    (fold_right mul (lit 100) (repeat (lit 1000000000000000000) 17))
    "off the map".

(** The application, started on [records]. *)
Definition session (records : list MarkerRecord) : MapApp :=
  new_MapApp records blank_document.

(** A wheel tick that zooms in, the pointer at (100, 100). *)
Definition wheel_in_at_100_100 : WheelEvent :=
  {| deltaY := lit (-100); wheel_clientX := lit 100; wheel_clientY := lit 100 |}.

(** The mouse is pressed on the map at (10, 10) and moved to (15, 10). *)
Definition drag_by_5 : list (Layout * Action) :=
  [(layout_1000x800, PanStart (MouseEvent "map-container" (lit 10) (lit 10)));
   (layout_1000x800, PanMove (MouseEvent "map-container" (lit 15) (lit 10)))].

(** The filter "Capitals" is selected, the map is dragged and zoomed, and
    the view is reset. *)
Definition filter_pan_zoom_reset : list (Layout * Action) :=
  [(layout_1000x800, FilterClick 1 "Capitals");
   (layout_1000x800, PanStart (MouseEvent "map-container" (lit 10) (lit 10)));
   (layout_1000x800, PanMove (MouseEvent "map-container" (lit 15) (lit 20)));
   (layout_1000x800, PanEnd);
   (layout_1000x800, Wheel wheel_in_at_100_100);
   (layout_1000x800, ResetView)].

End Model.

(** ** Loading and start-up *)

Section Startup.

Context {num : Type} {N : JSNumber num}.
Local Open Scope js_scope.

Definition set_markersData (v : list MarkerRecord) (st : MapApp (num := num)) : MapApp :=
  {| scale := scale st; translateX := translateX st;
     translateY := translateY st;
     isDragging := isDragging st; lastX := lastX st; lastY := lastY st;
     markersData := v; activeMarker := activeMarker st;
     dom := dom st |}.

(** The fields as the constructor sets them, over the document [d]. *)
Definition constructed (d : Dom (num := num)) : MapApp :=
  {| scale := lit 1.0;
     translateX := lit 0;
     translateY := lit 0;
     isDragging := false;
     lastX := lit 0;
     lastY := lit 0;
     markersData := [];
     activeMarker := None;
     dom := d |}.

(** [loadMarkersData].  [fetched] is what [fetch] and [response.json()]
    gave: the records, or [None] when either of them failed, which the
    [catch] logs and nothing more. *)
Definition loadMarkersData (fetched : option (list MarkerRecord))
    (st : MapApp (num := num)) : MapApp :=
  match fetched with
  | Some records => set_markersData records st
  | None => st
  end.

(** [init]: the data is loaded, the listeners are registered (which changes
    no field), the map is rendered and the filter buttons are created. *)
Definition init (fetched : option (list MarkerRecord)) (st : MapApp (num := num))
    : MapApp :=
  let st := loadMarkersData fetched st in
  let st := renderMap st in
  createFilterButtons st.

(** The translation and the scale are finite numbers: what [renderMap]
    needs for the browser to take the transform it writes. *)
Definition finite_viewport (st : MapApp (num := num)) : bool :=
  is_finite (translateX st) && is_finite (translateY st)
  && is_finite (scale st).

(** The container's transform shows the viewport of the state, when that
    is finite. *)
Definition Rendered (st : MapApp (num := num)) : Prop :=
  finite_viewport st = true ->
  transform (dom st) = (translateX st, translateY st, scale st).

(** A mouse event over the map at the position [p]. *)
Definition mouse_at (p : num * num) : PointerEvent :=
  MouseEvent "map-container" (fst p) (snd p).

(** The mouse moves through the positions [path], one [mousemove] each. *)
Definition drag_along (path : list (num * num)) (st : MapApp (num := num)) : MapApp :=
  fold_left (fun st p => state_of (handlePanMove (mouse_at p) st)) path st.

(** A wheel tick in, the button [-] and a reset. *)
Definition wheel_out_reset : list (Layout (num := num) * Action) :=
  [(layout_1000x800, Wheel wheel_in_at_100_100);
   (layout_1000x800, ZoomButton "out");
   (layout_1000x800, ResetView)].

End Startup.

(** ** Definitions for the properties *)

Local Open Scope Q_scope.

(** The scaled map covers the wrapper: on each axis the translation lies in
    the range [clampTranslations] bounds it to. *)
Definition Covers (L : Layout (num := Q)) (st : MapApp) : Prop :=
  (- (clientWidth L * scale st - clientWidth L) <= translateX st <= 0)
  /\ (- (clientHeight L * scale st - clientHeight L) <= translateY st <= 0).



(** At scale 1 the translation is (0,0). *)
Definition Centred (st : MapApp (num := Q)) : Prop :=
  scale st == 1 -> translateX st == 0 /\ translateY st == 0.

(** The scale [handleZoom] computes. *)
Definition wheelScale (e : WheelEvent (num := Q)) (st : MapApp) : Q :=
  Qmax 1.0 (Qmin 4.0 (scale st * (if Qltb (deltaY e) 0 then 1.1 else 0.9))).

(** The pivot of [handleZoom]: the pointer, from the corner of the
    container's box. *)
Definition cursorX (e : WheelEvent (num := Q)) (L : Layout) : Q :=
  wheel_clientX e - rect_left (mapContainer_rect L).

(** The search as the specification words it: the records whose name or
    position label contains the query, case ignored, and nothing for a query
    of fewer than 2 characters. *)
Definition search_as_stated {num : Type}
    (records : list (MarkerRecord (num := num))) (query : string)
    : list MarkerRecord :=
  if (String.length query <? 2)%nat then []
  else
    filter
      (fun m =>
         JSString.includes (JSString.toLowerCase (nom m))
           (JSString.toLowerCase query)
         || JSString.includes (JSString.toLowerCase (position_approx m))
              (JSString.toLowerCase query))
      records.

(** A string that does not start with white space. *)
Definition starts_clean (s : string) : Prop :=
  match s with
  | EmptyString => True
  | String c _ => JSString.is_space c = false
  end.

(** [a] is not after [b] in the order of code units. *)
Definition leb_true (a b : string) : Prop := String.leb a b = true.

(** [xs] is [ys] with some elements left out: the order is that of [ys]. *)
Inductive Subsequence {A : Type} : list A -> list A -> Prop :=
| Subsequence_nil : Subsequence [] []
| Subsequence_skip (y : A) (xs ys : list A) :
    Subsequence xs ys -> Subsequence xs (y :: ys)
| Subsequence_keep (y : A) (xs ys : list A) :
    Subsequence xs ys -> Subsequence (y :: xs) (y :: ys).

(** * Part II: the properties *)

Unset Implicit Arguments.

(** [js_Q] reads the operations of the interface as those of [Q]. *)
Ltac js_Q :=
  cbv [lit add sub mul div neg less strict_eq Math_max Math_min truthy
       is_finite is_finite_div Q_number] in *.

(** Division by a literal is multiplication by its inverse, which [lra]
    understands once the inverse is computed. *)
Ltac literal_inverses :=
  unfold Qdiv in *;
  repeat match goal with
         | |- context [Qinv (Qmake ?n ?d)] =>
             let v := eval compute in (Qinv (Qmake n d)) in
             change (Qinv (Qmake n d)) with v
         | H : context [Qinv (Qmake ?n ?d)] |- _ =>
             let v := eval compute in (Qinv (Qmake n d)) in
             change (Qinv (Qmake n d)) with v in H
         end.

Ltac lra_Q := js_Q; literal_inverses; lra.

(** ** Comparisons and bounds in [Q] *)

Lemma Qltb_true (a b : Q) : Qltb a b = true <-> a < b.
Proof.
  unfold Qltb. rewrite Qlt_alt. destruct (a ?= b); split; congruence.
Qed.

Lemma Qltb_false (a b : Q) : Qltb a b = false <-> b <= a.
Proof.
  rewrite <- Bool.not_true_iff_false, Qltb_true. split; intro H.
  - apply Qnot_lt_le, H.
  - apply Qle_not_lt, H.
Qed.

(** Bounding a value from above and then from below, as [Math.min] and
    [Math.max] do in [clampTranslations], gives a fixed point of that
    bounding, whatever the bounds. *)
Lemma bound_idempotent (t hi lo : Q) :
  Qmax (Qmin (Qmax (Qmin t hi) lo) hi) lo = Qmax (Qmin t hi) lo.
Proof.
  unfold Qmax, Qmin, GenericMinMax.gmax, GenericMinMax.gmin.
  repeat match goal with
         | |- context [?a ?= ?b] =>
             is_var a; is_var b; destruct (Qcompare_spec a b)
         end;
    try reflexivity; exfalso; lra.
Qed.

(** The scale the zoom handlers compute lies between the two limits. *)
Lemma limited_scale_bounds (x : Q) :
  1 <= Qmax 1.0 (Qmin 4.0 x) <= 4.
Proof.
  split.
  - apply Qle_trans with (y := 1.0); [lra | apply Q.le_max_l].
  - apply Q.max_lub; [lra |].
    apply Qle_trans with (y := 4.0); [apply Q.le_min_l | lra].
Qed.

(** The position of the pointer, bounded by the width of the wrapper. *)
Lemma bounded_position (w x : Q) :
  0 <= w -> 0 <= Qmax 0 (Qmin w x) <= w.
Proof.
  intro Hw. split.
  - apply Q.le_max_l.
  - apply Q.max_lub; [exact Hw | apply Q.le_min_l].
Qed.

(** ** What the methods change and what they leave alone *)

Section Frames.

Context {num : Type} {N : JSNumber num}.

(** [renderMap] writes the transform, or nothing. *)
Lemma renderMap_cases (st : MapApp) :
  renderMap st
  = on_dom (set_transform (translateX st, translateY st, scale st)) st
  \/ renderMap st = st.
Proof.
  unfold renderMap. destruct (_ && _); auto.
Qed.

Lemma scale_renderMap (st : MapApp (num := num)) :
  scale (renderMap st) = scale st.
Proof.
  destruct (renderMap_cases st) as [-> | ->]; reflexivity.
Qed.

Lemma translateX_renderMap (st : MapApp (num := num)) :
  translateX (renderMap st) = translateX st.
Proof.
  destruct (renderMap_cases st) as [-> | ->]; reflexivity.
Qed.

Lemma translateY_renderMap (st : MapApp (num := num)) :
  translateY (renderMap st) = translateY st.
Proof.
  destruct (renderMap_cases st) as [-> | ->]; reflexivity.
Qed.

Lemma markersData_renderMap (st : MapApp (num := num)) :
  markersData (renderMap st) = markersData st.
Proof.
  destruct (renderMap_cases st) as [-> | ->]; reflexivity.
Qed.

Lemma activeMarker_renderMap (st : MapApp (num := num)) :
  activeMarker (renderMap st) = activeMarker st.
Proof.
  destruct (renderMap_cases st) as [-> | ->]; reflexivity.
Qed.

Lemma filterControls_renderMap (st : MapApp (num := num)) :
  filterControls (dom (renderMap st)) = filterControls (dom st).
Proof.
  destruct (renderMap_cases st) as [-> | ->]; reflexivity.
Qed.

Lemma markersContainer_renderMap (st : MapApp (num := num)) :
  markersContainer (dom (renderMap st)) = markersContainer (dom st).
Proof.
  destruct (renderMap_cases st) as [-> | ->]; reflexivity.
Qed.

Lemma tooltip_renderMap (st : MapApp (num := num)) :
  tooltip (dom (renderMap st)) = tooltip (dom st).
Proof.
  destruct (renderMap_cases st) as [-> | ->]; reflexivity.
Qed.

Lemma isSwiping_renderMap (st : MapApp (num := num)) :
  isSwiping (dom (renderMap st)) = isSwiping (dom st).
Proof.
  destruct (renderMap_cases st) as [-> | ->]; reflexivity.
Qed.

Lemma clip_percent_renderMap (st : MapApp (num := num)) :
  clip_percent (dom (renderMap st)) = clip_percent (dom st).
Proof.
  destruct (renderMap_cases st) as [-> | ->]; reflexivity.
Qed.

Lemma separator_left_renderMap (st : MapApp (num := num)) :
  separator_left (dom (renderMap st)) = separator_left (dom st).
Proof.
  destruct (renderMap_cases st) as [-> | ->]; reflexivity.
Qed.

Lemma searchInput_renderMap (st : MapApp (num := num)) :
  searchInput (dom (renderMap st)) = searchInput (dom st).
Proof.
  destruct (renderMap_cases st) as [-> | ->]; reflexivity.
Qed.

Lemma searchResults_renderMap (st : MapApp (num := num)) :
  searchResults (dom (renderMap st)) = searchResults (dom st).
Proof.
  destruct (renderMap_cases st) as [-> | ->]; reflexivity.
Qed.

Lemma getActiveFilter_renderMap (st : MapApp (num := num)) :
  getActiveFilter (renderMap st) = getActiveFilter st.
Proof.
  unfold getActiveFilter. rewrite filterControls_renderMap. reflexivity.
Qed.

(** Every rational is finite, so over [Q] the transform is always
    written. *)
Lemma renderMap_Q (st : MapApp (num := Q)) :
  renderMap st
  = on_dom (set_transform (translateX st, translateY st, scale st)) st.
Proof.
  reflexivity.
Qed.

Lemma scale_clampTranslations (L : Layout) (st : MapApp) :
  scale (clampTranslations L st) = scale st.
Proof.
  unfold clampTranslations. destruct (less _ _); reflexivity.
Qed.

Lemma dom_clampTranslations (L : Layout) (st : MapApp) :
  dom (clampTranslations L st) = dom st.
Proof.
  unfold clampTranslations. destruct (less _ _); reflexivity.
Qed.

Lemma markersData_clampTranslations (L : Layout) (st : MapApp) :
  markersData (clampTranslations L st) = markersData st.
Proof.
  unfold clampTranslations. destruct (less _ _); reflexivity.
Qed.

(** The zoom handlers either change nothing or end with the limited scale. *)
Lemma scale_handleZoom (e : WheelEvent) (L : Layout) (st : MapApp) :
  handleZoom e L st = st
  \/ scale (handleZoom e L st)
     = Math_max (lit 1.0)
         (Math_min (lit 4.0)
            (mul (scale st)
               (if less (deltaY e) (lit 0) then lit 1.1 else lit 0.9))).
Proof.
  unfold handleZoom. destruct (strict_eq _ _); [left; reflexivity | right].
  rewrite scale_renderMap, scale_clampTranslations. reflexivity.
Qed.

Lemma scale_zoom (direction : string) (L : Layout) (st : MapApp) :
  zoom direction L st = st
  \/ scale (zoom direction L st)
     = Math_max (lit 1.0)
         (Math_min (lit 4.0)
            (mul (scale st)
               (if String.eqb direction "in" then lit 1.25 else lit 0.8))).
Proof.
  unfold zoom. destruct (strict_eq _ _); [left; reflexivity | right].
  rewrite scale_renderMap, scale_clampTranslations. reflexivity.
Qed.

(** A jump that raises has changed neither scale nor translation; one that
    returns has set the scale to 2. *)
Lemma scale_jumpToMarker (m : MarkerRecord) (L : Layout) (st : MapApp) :
  match jumpToMarker m L st with
  | Returned st' => scale st' = lit 2.0
  | Thrown st' =>
      scale st' = scale st
      /\ translateX st' = translateX st /\ translateY st' = translateY st
  end.
Proof.
  unfold jumpToMarker, showTooltip.
  destruct (querySelector_data_name _ _ _) as [| [el |]];
    cbn [scale translateX translateY]; auto.
  apply scale_renderMap.
Qed.

(** The listeners that do not touch the viewport. *)
Lemma viewport_step (L : Layout) (a : Action) (st : MapApp (num := num)) :
  match a with
  | PanMove _ | Wheel _ | ZoomButton _ | ResetView | JumpToMarker _ => True
  | _ => viewport (step L a st) = viewport st
  end.
Proof.
  destruct a; cbn [step]; try exact I; try reflexivity.
  - unfold handlePanStart.
    destruct (String.eqb _ _); [reflexivity |].
    destruct (clientX_or_touch e); [| reflexivity].
    destruct (clientY_or_touch e); reflexivity.
  - destruct (nth_error _ _); reflexivity.
  - unfold handleSearchInput. destruct (Nat.ltb _ _); reflexivity.
  - unfold onSwipe. destruct (negb _); [reflexivity |].
    destruct (clientX_or_touch e); [| reflexivity].
    destruct (swipePercent_is_finite _ _); reflexivity.
Qed.

Lemma scale_of_viewport (st st' : MapApp (num := num)) :
  viewport st' = viewport st -> scale st' = scale st.
Proof.
  intro H. apply (f_equal (fun v => fst (fst v))) in H. exact H.
Qed.

(** A pan changes the translation only. *)
Lemma scale_handlePanMove (e : PointerEvent) (st : MapApp (num := num)) :
  scale (state_of (handlePanMove e st)) = scale st.
Proof.
  unfold handlePanMove. destruct (negb _); [reflexivity |].
  destruct (clientX_or_touch e); [| reflexivity].
  destruct (clientY_or_touch e); [| reflexivity].
  cbn [state_of hideTooltip on_dom set_dom scale].
  rewrite scale_renderMap. reflexivity.
Qed.

Lemma forEach_appendChild_map {A B : Type} (make : A -> B) (xs : list A)
    (container : list B) :
  forEach_appendChild make xs container = (container ++ map make xs)%list.
Proof.
  unfold forEach_appendChild. revert container.
  induction xs as [| x xs IH]; intro container; cbn.
  - symmetry. apply app_nil_r.
  - rewrite IH, <- app_assoc. reflexivity.
Qed.

(** What [renderMarkers] leaves in the container. *)
Lemma markersContainer_renderMarkers (filterCategory : string) (st : MapApp) :
  markersContainer (dom (renderMarkers filterCategory st))
  = map (createMarker (activeMarker st))
      (filter (isVisible (num := num) filterCategory) (markersData st)).
Proof.
  unfold renderMarkers, on_dom, set_dom, set_markersContainer;
    cbn [dom markersContainer markersData activeMarker].
  rewrite forEach_appendChild_map. reflexivity.
Qed.

(** What [resetView] leaves in the container. *)
Lemma markersContainer_resetView (st : MapApp (num := num)) :
  markersContainer (dom (resetView st))
  = map (createMarker None)
      (filter (isVisible (getActiveFilter st)) (markersData st)).
Proof.
  unfold resetView.
  rewrite markersContainer_renderMarkers, activeMarker_renderMap,
    getActiveFilter_renderMap, markersData_renderMap.
  reflexivity.
Qed.

(** What [resetView] leaves in the fields. *)
Lemma scale_resetView (st : MapApp (num := num)) :
  scale (resetView st) = lit 1.0.
Proof.
  unfold resetView, renderMarkers. cbn [on_dom set_dom scale].
  rewrite scale_renderMap. reflexivity.
Qed.

Lemma translateX_resetView (st : MapApp (num := num)) :
  translateX (resetView st) = lit 0.
Proof.
  unfold resetView, renderMarkers. cbn [on_dom set_dom translateX].
  rewrite translateX_renderMap. reflexivity.
Qed.

Lemma translateY_resetView (st : MapApp (num := num)) :
  translateY (resetView st) = lit 0.
Proof.
  unfold resetView, renderMarkers. cbn [on_dom set_dom translateY].
  rewrite translateY_renderMap. reflexivity.
Qed.

Lemma activeMarker_resetView (st : MapApp (num := num)) :
  activeMarker (resetView st) = None.
Proof.
  unfold resetView, renderMarkers. cbn [on_dom set_dom activeMarker].
  rewrite activeMarker_renderMap. reflexivity.
Qed.

Lemma tooltip_resetView (st : MapApp (num := num)) :
  tooltip_hidden (tooltip (dom (resetView st))) = true.
Proof.
  unfold resetView, renderMarkers.
  cbn [on_dom set_dom dom set_markersContainer tooltip].
  rewrite tooltip_renderMap. reflexivity.
Qed.

Lemma filterControls_resetView (st : MapApp (num := num)) :
  filterControls (dom (resetView st)) = filterControls (dom st).
Proof.
  unfold resetView, renderMarkers.
  cbn [on_dom set_dom dom set_markersContainer filterControls].
  rewrite filterControls_renderMap. reflexivity.
Qed.

Lemma transform_resetView (st : MapApp (num := num)) :
  finite_viewport (resetView st) = true ->
  transform (dom (resetView st)) = (lit 0, lit 0, lit 1.0).
Proof.
  unfold finite_viewport.
  rewrite scale_resetView, translateX_resetView, translateY_resetView.
  intro Hfinite.
  unfold resetView, renderMarkers.
  cbn [on_dom set_dom dom set_markersContainer transform].
  unfold renderMap at 1.
  cbn [hideTooltip on_dom set_dom set_activeMarker set_translateX
       set_translateY set_scale scale translateX translateY].
  rewrite Hfinite. reflexivity.
Qed.

(** The first button of class [active-filter] is the one that has no
    selected button before it. *)
Lemma find_first_selected (before after : list FilterButton)
    (b : FilterButton) :
  Forall (fun x => active_filter x = false) before ->
  active_filter b = true ->
  find active_filter (before ++ b :: after) = Some b.
Proof.
  intros Hbefore Hb. induction Hbefore as [| x before Hx _ IH]; cbn.
  - rewrite Hb. reflexivity.
  - rewrite Hx. exact IH.
Qed.

Lemma find_none_selected (buttons : list FilterButton) :
  Forall (fun x => active_filter x = false) buttons ->
  find active_filter buttons = None.
Proof.
  intro H. induction H as [| x buttons Hx _ IH]; cbn.
  - reflexivity.
  - rewrite Hx. exact IH.
Qed.

(** A record of the loaded data is visible under its own category, so its
    element is there to be found. *)
Lemma querySelector_finds (m : MarkerRecord (num := num)) (L : Layout)
    (st : MapApp) :
  JSString.plain_in_selector (nom m) = true ->
  In m (markersData st) ->
  exists el,
    querySelector_data_name (nom m) L (renderMarkers (categorie m) st)
    = Selected (Some el).
Proof.
  intros Hplain Hin. unfold querySelector_data_name.
  rewrite Hplain, markersContainer_renderMarkers.
  destruct (find _ _) as [el |] eqn:Hfind; [exists el; reflexivity |].
  exfalso.
  apply find_none with (x := createMarker (activeMarker st) m) in Hfind.
  - cbn in Hfind. rewrite String.eqb_refl in Hfind. discriminate.
  - apply in_map, filter_In. split; [exact Hin |].
    unfold isVisible. rewrite String.eqb_refl. apply orb_true_r.
Qed.

(** A jump to a loaded record whose name is plain in a selector returns,
    with scale 2 and the translation
    [viewCenter - markerPixelPos * targetScale]. *)
Lemma jumpToMarker_returns (m : MarkerRecord) (L : Layout) (st : MapApp) :
  JSString.plain_in_selector (nom m) = true ->
  In m (markersData st) ->
  exists st',
    jumpToMarker m L st = Returned st'
    /\ scale st' = lit 2.0
    /\ translateX st'
       = sub (div (rect_width (mapWrapper_rect L)) (lit 2))
           (mul (mul (div (left m) (lit 100)) (clientWidth L)) (lit 2.0))
    /\ translateY st'
       = sub (div (rect_height (mapWrapper_rect L)) (lit 2))
           (mul (mul (div (top m) (lit 100)) (clientHeight L)) (lit 2.0))
    /\ activeMarker st' = Some m.
Proof.
  intros Hplain Hin. unfold jumpToMarker.
  destruct (querySelector_finds m L (set_activeMarker (Some m) st) Hplain)
    as [el Hel]; [exact Hin |].
  rewrite Hel. cbn [showTooltip].
  eexists. split; [reflexivity |].
  rewrite scale_renderMap, translateX_renderMap, translateY_renderMap,
    activeMarker_renderMap.
  repeat split.
Qed.

(** No listener changes the loaded records, and only a click on a filter
    button changes the buttons. *)
Lemma records_and_buttons_step (L : Layout) (a : Action)
    (st : MapApp (num := num)) :
  markersData (step L a st) = markersData st
  /\ ((forall i c, a <> FilterClick i c) ->
      filterControls (dom (step L a st)) = filterControls (dom st)).
Proof.
  destruct a; cbn [step]; auto.
  - unfold handlePanStart.
    destruct (String.eqb _ _); [auto |].
    destruct (clientX_or_touch e); [| auto].
    destruct (clientY_or_touch e); auto.
  - unfold handlePanMove.
    destruct (negb _); [auto |].
    destruct (clientX_or_touch e); [| auto].
    destruct (clientY_or_touch e); [| auto].
    cbn [state_of hideTooltip on_dom set_dom set_tooltip markersData dom
         filterControls].
    rewrite markersData_renderMap, filterControls_renderMap. auto.
  - unfold handleZoom. destruct (strict_eq _ _); [auto |].
    rewrite markersData_renderMap, filterControls_renderMap,
      markersData_clampTranslations, dom_clampTranslations. auto.
  - unfold zoom. destruct (strict_eq _ _); [auto |].
    rewrite markersData_renderMap, filterControls_renderMap,
      markersData_clampTranslations, dom_clampTranslations. auto.
  - unfold resetView.
    cbn [renderMarkers on_dom set_dom set_markersContainer markersData dom
         filterControls].
    rewrite markersData_renderMap, filterControls_renderMap. auto.
  - destruct (nth_error _ _); auto.
  - unfold handleSearchInput. destruct (Nat.ltb _ _); auto.
  - unfold jumpToMarker, showTooltip.
    destruct (querySelector_data_name _ _ _) as [| [el |]]; auto.
    cbn [state_of].
    rewrite markersData_renderMap, filterControls_renderMap. auto.
  - split; [reflexivity |]. intro H. exfalso.
    apply (H clickedButton category). reflexivity.
  - unfold onSwipe. destruct (negb _); [auto |].
    destruct (clientX_or_touch e); [| auto].
    destruct (swipePercent_is_finite _ _); auto.
Qed.

Lemma records_and_buttons_run (actions : list (Layout * Action))
    (st : MapApp (num := num)) :
  Forall (fun La => forall i c, snd La <> FilterClick i c) actions ->
  markersData (run actions st) = markersData st
  /\ getActiveFilter (run actions st) = getActiveFilter st.
Proof.
  revert st. induction actions as [| [L a] rest IH]; intros st Hall.
  - auto.
  - cbn [run]. inversion Hall as [| ? ? Ha Hrest]; subst.
    destruct (IH (step L a st) Hrest) as [-> Hf].
    destruct (records_and_buttons_step L a st) as [-> Hb].
    split; [reflexivity |]. rewrite Hf. unfold getActiveFilter.
    rewrite (Hb Ha). reflexivity.
Qed.

End Frames.

(** ** The clamp *)

Lemma clampTranslations_at_scale_1 (L : Layout (num := Q)) (st : MapApp) :
  scale st <= 1 ->
  translateX (clampTranslations L st) = 0
  /\ translateY (clampTranslations L st) = 0.
Proof.
  intro H. unfold clampTranslations.
  replace (less (lit 1) (scale st)) with false; [split; reflexivity |].
  symmetry. js_Q. apply Qltb_false, H.
Qed.

(** C7. Clamp is idempotent: whatever the scale, the translation and the
    container's width and height, [clampTranslations] applied twice leaves
    the state that [clampTranslations] applied once leaves. *)
Theorem clampTranslations_idempotent (L : Layout (num := Q)) (st : MapApp) :
  clampTranslations L (clampTranslations L st) = clampTranslations L st.
Proof.
  unfold clampTranslations at 1 3.
  rewrite scale_clampTranslations.
  unfold clampTranslations.
  destruct (less (lit 1) (scale st)); [| reflexivity].
  unfold set_translateY, set_translateX; cbn [scale translateX translateY
    isDragging lastX lastY markersData activeMarker dom].
  js_Q. rewrite !bound_idempotent. reflexivity.
Qed.

(** ** The scale limits *)

Lemma handleZoom_scale_limits (e : WheelEvent (num := Q)) (L : Layout)
    (st : MapApp) :
  1 <= scale st <= 4 -> 1 <= scale (handleZoom e L st) <= 4.
Proof.
  intro H. destruct (scale_handleZoom e L st) as [-> | ->];
    [exact H | js_Q; apply limited_scale_bounds].
Qed.

Lemma zoom_scale_limits (direction : string) (L : Layout (num := Q))
    (st : MapApp) :
  1 <= scale st <= 4 -> 1 <= scale (zoom direction L st) <= 4.
Proof.
  intro H. destruct (scale_zoom direction L st) as [-> | ->];
    [exact H | js_Q; apply limited_scale_bounds].
Qed.

Lemma jumpToMarker_scale_limits (m : MarkerRecord (num := Q)) (L : Layout)
    (st : MapApp) :
  1 <= scale st <= 4 -> 1 <= scale (state_of (jumpToMarker m L st)) <= 4.
Proof.
  intro H. pose proof (scale_jumpToMarker m L st) as J.
  destruct (jumpToMarker m L st); cbn [state_of].
  - rewrite J. js_Q. lra.
  - destruct J as [-> _]. exact H.
Qed.

Lemma resetView_scale_limits (st : MapApp (num := Q)) :
  1 <= scale (resetView st) <= 4.
Proof.
  cbn. lra.
Qed.

(** C3. From a state whose scale is between 1 and 4, a wheel zoom, a button
    zoom, a jump to a marker (whether it returns or raises) and a reset each
    end in a state whose scale is between 1 and 4. *)
Theorem scale_within_limits (L : Layout (num := Q)) (st : MapApp)
    (e : WheelEvent) (direction : string) (m : MarkerRecord) :
  1 <= scale st <= 4 ->
  1 <= scale (handleZoom e L st) <= 4
  /\ 1 <= scale (zoom direction L st) <= 4
  /\ 1 <= scale (state_of (jumpToMarker m L st)) <= 4
  /\ 1 <= scale (resetView st) <= 4.
Proof.
  intro H. refine (conj _ (conj _ (conj _ _))).
  - apply handleZoom_scale_limits, H.
  - apply zoom_scale_limits, H.
  - apply jumpToMarker_scale_limits, H.
  - apply resetView_scale_limits.
Qed.

Lemma scale_within_limits_witness :
  1 <= scale (session (num := Q) [Ironforge]) <= 4
  /\ (1 <= scale (handleZoom wheel_in_at_100_100 layout_1000x800
                    (session [Ironforge])) <= 4
      /\ 1 <= scale (zoom "in" layout_1000x800 (session [Ironforge])) <= 4
      /\ 1 <= scale (state_of (jumpToMarker Ironforge layout_1000x800
                                (session [Ironforge]))) <= 4
      /\ 1 <= scale (resetView (session (num := Q) [Ironforge])) <= 4).
Proof.
  split.
  - cbn. lra.
  - apply (scale_within_limits layout_1000x800 (session [Ironforge])).
    cbn. lra.
Defined.

(** The limits hold throughout a session. *)
Lemma scale_limits_run (actions : list (Layout (num := Q) * Action))
    (st : MapApp) :
  1 <= scale st <= 4 -> 1 <= scale (run actions st) <= 4.
Proof.
  revert st. induction actions as [| [L a] rest IH]; intros st H.
  - exact H.
  - cbn [run]. apply IH.
    pose proof (viewport_step L a st) as Hv.
    destruct a; cbn [step] in *;
      try (rewrite (scale_of_viewport _ _ Hv); exact H).
    + rewrite scale_handlePanMove. exact H.
    + apply handleZoom_scale_limits, H.
    + apply zoom_scale_limits, H.
    + apply resetView_scale_limits.
    + apply jumpToMarker_scale_limits, H.
Qed.

(** ** Translation at scale 1 *)

Lemma Centred_viewport (st st' : MapApp) :
  viewport st' = viewport st -> Centred st -> Centred st'.
Proof.
  unfold viewport, Centred. intros H. injection H as -> -> ->. auto.
Qed.

(** After the clamp the translation at scale 1 is (0,0), whatever it was. *)
Lemma Centred_clampTranslations (L : Layout) (st : MapApp) :
  Centred (clampTranslations L st).
Proof.
  intro H. rewrite scale_clampTranslations in H.
  destruct (clampTranslations_at_scale_1 L st) as [-> ->]; [lra |].
  split; reflexivity.
Qed.

(** Every listener but the pan keeps the translation at (0,0) at scale 1:
    the zoom handlers clamp, the reset sets it, the jump leaves scale 2. *)
Lemma Centred_step (L : Layout) (a : Action) (st : MapApp) :
  (forall e, a <> PanMove e) -> Centred st -> Centred (step L a st).
Proof.
  intros Hpan Hst.
  pose proof (viewport_step L a st) as Hv.
  destruct a; try (apply Centred_viewport with (st := st); assumption).
  - exfalso. apply (Hpan e). reflexivity.
  - cbn [step]. unfold handleZoom. destruct (strict_eq _ _); [exact Hst |].
    intro H. apply Centred_clampTranslations. exact H.
  - cbn [step]. unfold zoom. destruct (strict_eq _ _); [exact Hst |].
    intro H. apply Centred_clampTranslations. exact H.
  - cbn [step]. intros _. split; reflexivity.
  - cbn [step]. pose proof (scale_jumpToMarker markerData L st) as J.
    destruct (jumpToMarker markerData L st) as [st' | st']; cbn [state_of].
    + intro H. rewrite J in H. discriminate H.
    + destruct J as (Hs & Hx & Hy). intro H.
      rewrite Hx, Hy. apply Hst. rewrite <- Hs. exact H.
Qed.

(** In a session without a pan move the translation at scale 1 is (0,0). *)
Lemma Centred_run (actions : list (Layout * Action)) (st : MapApp) :
  Forall (fun La => forall e, snd La <> PanMove e) actions ->
  Centred st -> Centred (run actions st).
Proof.
  revert st. induction actions as [| [L a] rest IH]; intros st Hall Hst.
  - exact Hst.
  - cbn [run]. inversion Hall as [| ? ? Ha Hrest]; subst.
    apply IH; [exact Hrest |]. apply Centred_step; assumption.
Qed.

(** C2. The clamp does not run after a pan: from the state the application
    starts in, pressing the mouse at (10, 10) and moving it to (15, 10)
    leaves scale 1 with the translation (5, 0), not (0,0). *)
Theorem pan_at_scale_1_leaves_translation :
  scale (run drag_by_5 (session (num := Q) [])) == 1
  /\ translateX (run drag_by_5 (session (num := Q) [])) == 5
  /\ translateY (run drag_by_5 (session (num := Q) [])) == 0
  /\ ~ Centred (run drag_by_5 (session (num := Q) [])).
Proof.
  repeat split; try reflexivity.
  intro H. destruct H as [Hx _]; [reflexivity |].
  vm_compute in Hx. discriminate Hx.
Qed.

(** ** Zoom about the pointer *)

(** When the scale changes and the clamp has nothing to do, the translation
    after a wheel zoom is the one the handler computes. *)
Lemma handleZoom_translateX (e : WheelEvent) (L : Layout) (st : MapApp) :
  ~ wheelScale e st == scale st ->
  1 < wheelScale e st ->
  - (clientWidth L * wheelScale e st - clientWidth L)
    <= translateX st
       - cursorX e L * (wheelScale e st - scale st) / wheelScale e st
    <= 0 ->
  scale (handleZoom e L st) = wheelScale e st
  /\ translateX (handleZoom e L st)
     == translateX st
        - cursorX e L * (wheelScale e st - scale st) / wheelScale e st.
Proof.
  intros Hne Hgt Hrange. unfold handleZoom. js_Q.
  fold (wheelScale e st). fold (cursorX e L).
  destruct (Qeq_bool (wheelScale e st) (scale st)) eqn:Heq.
  { exfalso. apply Hne, Qeq_bool_iff, Heq. }
  rewrite renderMap_Q. unfold on_dom, set_dom, clampTranslations. js_Q.
  cbn [scale translateX translateY set_scale set_translateX set_translateY].
  replace (Qltb 1 (wheelScale e st)) with true
    by (symmetry; apply Qltb_true; lra).
  cbn [scale translateX translateY set_scale set_translateX set_translateY].
  split; [reflexivity |].
  rewrite Q.min_l by apply Hrange.
  apply Q.max_l, Hrange.
Qed.

(** Then the point under the pointer moves by
    [p * (s' - s)^2 / (s * s')]: the update divides by the new scale where
    keeping the point in place takes the old one. *)
Lemma handleZoom_pivot_shift (e : WheelEvent) (L : Layout) (st : MapApp) :
  0 < scale st ->
  ~ wheelScale e st == scale st ->
  1 < wheelScale e st ->
  - (clientWidth L * wheelScale e st - clientWidth L)
    <= translateX st
       - cursorX e L * (wheelScale e st - scale st) / wheelScale e st
    <= 0 ->
  screen_of (scale (handleZoom e L st)) (translateX (handleZoom e L st))
    (content_under st (cursorX e L))
  - screen_of (scale st) (translateX st) (content_under st (cursorX e L))
  == cursorX e L * (wheelScale e st - scale st) * (wheelScale e st - scale st)
     / (scale st * wheelScale e st).
Proof.
  intros Hs Hne Hgt Hrange.
  destruct (handleZoom_translateX e L st Hne Hgt Hrange) as [Hs' Ht'].
  unfold screen_of, content_under. js_Q. rewrite Hs', Ht'.
  field. split; lra.
Qed.

(** C1. The wheel zoom does not keep the point under the pointer in place.
    From the starting state, in a wrapper of 1000 by 800, a wheel tick with
    the pointer at (100, 100) takes the scale from 1 to 1.1 and the
    translation to (-100/11, -100/11), inside the range the clamp allows;
    the map point that was under the pointer is then drawn at
    (100 + 10/11, 100 + 10/11), most of a pixel away. *)
Theorem wheel_zoom_moves_pivot :
  scale (session (num := Q) []) == 1
  /\ scale (handleZoom wheel_in_at_100_100 layout_1000x800 (session [])) == 1.1
  /\ translateX (handleZoom wheel_in_at_100_100 layout_1000x800 (session []))
     == - (100 # 11)
  /\ translateY (handleZoom wheel_in_at_100_100 layout_1000x800 (session []))
     == - (100 # 11)
  /\ - (1000 * 1.1 - 1000) <= - (100 # 11) <= 0
  /\ cursorX wheel_in_at_100_100 layout_1000x800 == 100
  /\ screen_of (scale (session [])) (translateX (session []))
       (content_under (session []) 100) == 100
  /\ screen_of
       (scale (handleZoom wheel_in_at_100_100 layout_1000x800 (session [])))
       (translateX (handleZoom wheel_in_at_100_100 layout_1000x800 (session [])))
       (content_under (session []) 100) == 100 + (10 # 11)
  /\ screen_of
       (scale (handleZoom wheel_in_at_100_100 layout_1000x800 (session [])))
       (translateY (handleZoom wheel_in_at_100_100 layout_1000x800 (session [])))
       (content_under (session []) 100) == 100 + (10 # 11).
Proof.
  repeat split; try reflexivity; vm_compute; discriminate.
Qed.

(** ** Jump to a marker *)

(** C4. A loaded record with [top = 50] and [left = 50] whose name can be
    pasted into the selector as it is (no double quote, backslash, line
    break or NUL in it), a wrapper 1000 pixels wide and 800 high: the jump
    returns with scale 2 and the translation
    [viewCenter - markerPixelPos * 2], that is (-500, -400), under which the
    marker is drawn at the centre of the wrapper, (500, 400). *)
Theorem jump_centres_marker (L : Layout (num := Q)) (st : MapApp)
    (m : MarkerRecord) :
  In m (markersData st) ->
  JSString.plain_in_selector (nom m) = true ->
  left m == 50 -> top m == 50 ->
  rect_width (mapWrapper_rect L) == 1000 ->
  rect_height (mapWrapper_rect L) == 800 ->
  clientWidth L == 1000 -> clientHeight L == 800 ->
  let viewCenterX := rect_width (mapWrapper_rect L) / 2 in
  let viewCenterY := rect_height (mapWrapper_rect L) / 2 in
  let markerX := left m / 100 * clientWidth L in
  let markerY := top m / 100 * clientHeight L in
  exists st',
    jumpToMarker m L st = Returned st'
    /\ scale st' == 2
    /\ translateX st' == viewCenterX - markerX * 2
    /\ translateY st' == viewCenterY - markerY * 2
    /\ translateX st' == -500 /\ translateY st' == -400
    /\ screen_of (scale st') (translateX st') markerX == 500
    /\ screen_of (scale st') (translateY st') markerY == 400.
Proof.
  intros Hin Hplain Hl Ht Hw Hh Hcw Hch
    viewCenterX viewCenterY markerX markerY.
  destruct (jumpToMarker_returns m L st Hplain Hin)
    as (st' & Hj & Hs & Hx & Hy & _).
  exists st'. split; [exact Hj |].
  unfold screen_of. rewrite Hs, Hx, Hy.
  subst viewCenterX viewCenterY markerX markerY. js_Q.
  rewrite Hl, Ht, Hw, Hh, Hcw, Hch.
  repeat split; reflexivity.
Qed.

(** C9. The jump does not clamp. For a loaded record at the left edge
    ([left = 0]) whose name can be pasted into the selector as it is, and a
    wrapper of positive width [w], the jump leaves [translateX = w / 2 > 0]
    at scale 2: outside the range [[-(w * 2 - w), 0]] that
    [clampTranslations] enforces, which would change it. *)
Theorem jump_is_not_clamped (L : Layout (num := Q)) (st : MapApp)
    (m : MarkerRecord) :
  In m (markersData st) ->
  JSString.plain_in_selector (nom m) = true ->
  left m == 0 ->
  0 < clientWidth L ->
  rect_width (mapWrapper_rect L) == clientWidth L ->
  exists st',
    jumpToMarker m L st = Returned st'
    /\ scale st' == 2
    /\ translateX st' == clientWidth L / 2
    /\ 0 < translateX st'
    /\ ~ (- (clientWidth L * scale st' - clientWidth L) <= translateX st' <= 0)
    /\ translateX (clampTranslations L st') == 0
    /\ ~ translateX (clampTranslations L st') == translateX st'.
Proof.
  intros Hin Hplain Hl Hpos Hw.
  destruct (jumpToMarker_returns m L st Hplain Hin)
    as (st' & Hj & Hs & Hx & _ & _).
  exists st'. split; [exact Hj |].
  assert (Hx' : translateX st' == clientWidth L / 2).
  { rewrite Hx. js_Q. rewrite Hl, Hw. field. }
  assert (Hc : translateX (clampTranslations L st') == 0).
  { unfold clampTranslations. rewrite Hs. js_Q.
    change (Qltb 1 2.0) with true. cbn [translateX set_translateX set_translateY].
    rewrite Q.max_l.
    - apply Q.min_r. lra_Q.
    - rewrite Q.min_r by lra_Q. lra_Q. }
  rewrite Hs.
  repeat split; try lra_Q.
Qed.

Lemma jump_centres_marker_witness :
  exists st',
    jumpToMarker Ironforge layout_1000x800 (session (num := Q) [Ironforge])
    = Returned st'
    /\ scale st' == 2
    /\ translateX st' == -500 /\ translateY st' == -400.
Proof.
  destruct (jump_centres_marker layout_1000x800 (session [Ironforge]) Ironforge)
    as (st' & Hj & Hs & _ & _ & Hx & Hy & _); try reflexivity.
  - cbn. left. reflexivity.
  - exists st'. repeat split; assumption.
Defined.

Lemma jump_is_not_clamped_witness :
  exists st',
    jumpToMarker Origin layout_1000x800 (session (num := Q) [Origin])
    = Returned st'
    /\ translateX st' == 500
    /\ ~ translateX (clampTranslations layout_1000x800 st') == translateX st'.
Proof.
  destruct (jump_is_not_clamped layout_1000x800 (session [Origin]) Origin)
    as (st' & Hj & _ & Hx & _ & _ & _ & Hc); try reflexivity.
  - cbn. left. reflexivity.
  - exists st'. repeat split; [exact Hj | rewrite Hx; reflexivity | exact Hc].
Defined.

(** ** Reset *)

Section Reset.

Context {num : Type} {N : JSNumber num}.

(** C6. Whatever the state, [resetView] sets the scale to 1 and the
    translation to (0,0), clears the active marker, hides the tooltip,
    writes the transform, and renders the markers of the filter whose button
    is selected, none of them active; the buttons, and with them the
    selected filter, are as they were.  The selected filter is that of the
    first button of class [active-filter]: when that is the button [b], the
    elements rendered are those of the loaded records that [b]'s filter
    shows, which for a filter other than ['all'] are the records of that
    category and no others; all records are rendered only when the filter is
    ['all'] or no button is selected. *)
Theorem resetView_keeps_filter (st : MapApp (num := num)) :
  scale (resetView st) = lit 1.0
  /\ translateX (resetView st) = lit 0
  /\ translateY (resetView st) = lit 0
  /\ activeMarker (resetView st) = None
  /\ tooltip_hidden (tooltip (dom (resetView st))) = true
  /\ (finite_viewport (resetView st) = true ->
      transform (dom (resetView st)) = (lit 0, lit 0, lit 1.0))
  /\ markersContainer (dom (resetView st))
     = map (createMarker None)
         (filter (isVisible (getActiveFilter st)) (markersData st))
  /\ (forall el, In el (markersContainer (dom (resetView st))) ->
      class_active el = false
      /\ (getActiveFilter st = "all"%string
          \/ data_category el = getActiveFilter st))
  /\ filterControls (dom (resetView st)) = filterControls (dom st)
  /\ getActiveFilter (resetView st) = getActiveFilter st
  /\ (forall before b after,
        filterControls (dom st) = (before ++ b :: after)%list ->
        Forall (fun x => active_filter x = false) before ->
        active_filter b = true ->
        getActiveFilter (resetView st) = dataset_filter b
        /\ markersContainer (dom (resetView st))
           = map (createMarker None)
               (filter (isVisible (dataset_filter b)) (markersData st))
        /\ (dataset_filter b <> "all"%string ->
            forall el,
              In el (markersContainer (dom (resetView st)))
              <-> exists m,
                    In m (markersData st)
                    /\ categorie m = dataset_filter b
                    /\ el = createMarker None m))
  /\ (Forall (fun x => active_filter x = false) (filterControls (dom st)) ->
      markersContainer (dom (resetView st))
      = map (createMarker None) (markersData st)).
Proof.
  pose proof (markersContainer_resetView st) as Hm.
  pose proof (scale_resetView st) as Hs.
  pose proof (translateX_resetView st) as Hx.
  pose proof (translateY_resetView st) as Hy.
  assert (Hf : getActiveFilter (resetView st) = getActiveFilter st).
  { unfold getActiveFilter. rewrite filterControls_resetView. reflexivity. }
  refine (conj Hs (conj Hx (conj Hy (conj (activeMarker_resetView st)
           (conj (tooltip_resetView st) (conj (transform_resetView st)
           (conj Hm (conj _ (conj (filterControls_resetView st)
           (conj Hf (conj _ _))))))))))).
  - intros el Hel. rewrite Hm in Hel.
    apply in_map_iff in Hel. destruct Hel as (m & <- & Hin).
    apply filter_In in Hin. destruct Hin as [_ Hvis].
    split; [reflexivity |].
    unfold isVisible in Hvis. apply orb_true_iff in Hvis.
    destruct Hvis as [H | H]; apply String.eqb_eq in H; auto.
  - intros before b after Hbuttons Hbefore Hb.
    assert (Hsel : getActiveFilter st = dataset_filter b).
    { unfold getActiveFilter.
      rewrite Hbuttons, (find_first_selected before after b Hbefore Hb).
      reflexivity. }
    rewrite Hf, Hm, Hsel.
    refine (conj eq_refl (conj eq_refl _)).
    intros Hnot el. rewrite in_map_iff. split.
    + intros (m & <- & Hin). apply filter_In in Hin.
      destruct Hin as [Hin Hvis]. exists m.
      refine (conj Hin (conj _ eq_refl)).
      unfold isVisible in Hvis. apply orb_true_iff in Hvis.
      destruct Hvis as [H | H]; apply String.eqb_eq in H.
      * exfalso. apply Hnot, H.
      * exact H.
    + intros (m & Hin & Hcat & ->). exists m. split; [reflexivity |].
      apply filter_In. split; [exact Hin |].
      unfold isVisible. apply orb_true_iff. right.
      apply String.eqb_eq, Hcat.
  - intro Hnone. rewrite Hm. unfold getActiveFilter.
    rewrite (find_none_selected _ Hnone). f_equal.
    apply forallb_filter_id. apply forallb_forall. intros m _. reflexivity.
Qed.

(** In a session: once a filter is selected, panning, zooming, searching
    and jumping do not change what a later reset renders. *)
Lemma reset_after_session (actions : list (Layout * Action))
    (st : MapApp (num := num)) :
  Forall (fun La => forall i c, snd La <> FilterClick i c) actions ->
  markersContainer (dom (resetView (run actions st)))
  = map (createMarker None)
      (filter (isVisible (getActiveFilter st)) (markersData st)).
Proof.
  intro Hall.
  rewrite markersContainer_resetView.
  destruct (records_and_buttons_run actions st Hall) as [-> ->].
  reflexivity.
Qed.

End Reset.

(** ** The swipe percent *)

Lemma swipePercent_bounds (L : Layout (num := Q)) (x : Q) :
  0 < rect_width (mapWrapper_rect L) ->
  0 <= swipePercent L x <= 100.
Proof.
  intro Hw. unfold swipePercent. js_Q.
  set (w := rect_width (mapWrapper_rect L)) in *.
  set (c := Qmax 0 (Qmin w (x - rect_left (mapWrapper_rect L)))).
  assert (Hc : 0 <= c <= w) by (apply bounded_position; lra).
  split.
  - apply Qmult_le_0_compat; [| lra].
    apply Qle_shift_div_l; [exact Hw | lra].
  - setoid_replace 100 with (1 * 100) at 2 by reflexivity.
    apply Qmult_le_compat_r; [| lra].
    apply Qle_shift_div_r; [exact Hw | lra].
Qed.

Lemma swipePercent_right (L : Layout (num := Q)) (x : Q) :
  0 < rect_width (mapWrapper_rect L) ->
  rect_width (mapWrapper_rect L) <= x - rect_left (mapWrapper_rect L) ->
  swipePercent L x == 100.
Proof.
  intros Hw Hx. unfold swipePercent. js_Q.
  rewrite Q.min_l by exact Hx.
  rewrite Q.max_r by lra.
  field. lra.
Qed.

Lemma swipePercent_left (L : Layout (num := Q)) (x : Q) :
  0 < rect_width (mapWrapper_rect L) ->
  x - rect_left (mapWrapper_rect L) <= 0 ->
  swipePercent L x == 0.
Proof.
  intros Hw Hx. unfold swipePercent. js_Q.
  rewrite Q.min_r by lra.
  rewrite Q.max_l by exact Hx.
  field. lra.
Qed.

(** Over a wrapper of positive width the percent is a finite number. *)
Lemma swipePercent_is_finite_Q (L : Layout (num := Q)) (x : Q) :
  0 < rect_width (mapWrapper_rect L) ->
  swipePercent_is_finite L x = true.
Proof.
  intro Hw. unfold swipePercent_is_finite. js_Q.
  rewrite andb_true_r. apply negb_true_iff.
  destruct (Qeq_bool _ 0) eqn:H; [| reflexivity].
  apply Qeq_bool_iff in H. lra.
Qed.

(** Where the handler reads a position [x], over a wrapper of positive
    width: the clip and the separator get a percent between 0 and 100,
    exactly 100 when the pointer is at or beyond the right edge and exactly
    0 at or beyond the left one. *)
Lemma onSwipe_percent_in_range (e : PointerEvent (num := Q)) (L : Layout)
    (st : MapApp) (x : Q) :
  isSwiping (dom st) = true ->
  clientX_or_touch e = Some x ->
  0 < rect_width (mapWrapper_rect L) ->
  exists percent,
    onSwipe e L st = Returned (on_dom (set_swipe percent) st)
    /\ clip_percent (dom (state_of (onSwipe e L st))) = Some percent
    /\ separator_left (dom (state_of (onSwipe e L st))) = Some percent
    /\ 0 <= percent <= 100
    /\ (rect_width (mapWrapper_rect L) <= x - rect_left (mapWrapper_rect L) ->
        percent == 100)
    /\ (x - rect_left (mapWrapper_rect L) <= 0 -> percent == 0).
Proof.
  intros Hswiping Hx Hw. exists (swipePercent L x).
  unfold onSwipe.
  rewrite Hswiping, Hx, (swipePercent_is_finite_Q L x Hw). cbn [negb state_of].
  repeat apply conj; try reflexivity.
  - apply swipePercent_bounds, Hw.
  - apply swipePercent_bounds, Hw.
  - apply swipePercent_right, Hw.
  - apply swipePercent_left, Hw.
Qed.

(** A mouse position of exactly 0 is falsy: the handler goes on to
    [e.touches], which a mouse event does not have, and raises before it
    computes a percent. *)
Lemma onSwipe_mouse_at_0 (id : string) (y : Q) (L : Layout) (st : MapApp) :
  isSwiping (dom st) = true ->
  onSwipe (MouseEvent id 0 y) L st = Thrown st.
Proof.
  intro Hswiping. unfold onSwipe. rewrite Hswiping. reflexivity.
Qed.

(** C8. The percent is not computed for every pointer position.  During a
    swipe, a mouse move whose [clientX] is 0 makes [onSwipe] raise: the clip
    and the separator stay where they were, whatever the wrapper.  When the
    wrapper's left edge is right of 0 and its width is positive, that
    pointer is left of the wrapper: the percent the handler's formula gives
    for the position 0 is 0, and a touch at the same position does move the
    clip and the separator to 0. *)
Theorem swipe_at_clientX_0_raises (id : string) (y : Q)
    (L : Layout (num := Q)) (st : MapApp) :
  isSwiping (dom st) = true ->
  onSwipe (MouseEvent id 0 y) L st = Thrown st
  /\ clip_percent (dom (state_of (onSwipe (MouseEvent id 0 y) L st)))
     = clip_percent (dom st)
  /\ separator_left (dom (state_of (onSwipe (MouseEvent id 0 y) L st)))
     = separator_left (dom st)
  /\ (0 < rect_left (mapWrapper_rect L) ->
      0 < rect_width (mapWrapper_rect L) ->
      swipePercent L 0 == 0
      /\ exists percent,
           onSwipe (TouchEvent id [{| touch_clientX := 0; touch_clientY := y |}])
             L st
           = Returned (on_dom (set_swipe percent) st)
           /\ percent == 0).
Proof.
  intro Hswiping. rewrite (onSwipe_mouse_at_0 id y L st Hswiping).
  refine (conj eq_refl (conj eq_refl (conj eq_refl _))).
  intros Hleft Hw.
  assert (H0 : swipePercent L 0 == 0) by (apply swipePercent_left; lra).
  split; [exact H0 |].
  exists (swipePercent L 0). split; [| exact H0].
  unfold onSwipe. rewrite Hswiping. cbn [negb clientX_or_touch touch_clientX].
  rewrite (swipePercent_is_finite_Q L 0 Hw). reflexivity.
Qed.

Lemma swipe_at_clientX_0_raises_witness :
  onSwipe (MouseEvent "" 0 300) layout_inset_100
    (on_dom (set_isSwiping true) (session (num := Q) []))
  = Thrown (on_dom (set_isSwiping true) (session (num := Q) []))
  /\ clip_percent
       (dom (state_of
               (onSwipe (MouseEvent "" 0 300) layout_inset_100
                  (on_dom (set_isSwiping true) (session (num := Q) [])))))
     = None
  /\ swipePercent (num := Q) layout_inset_100 0 == 0.
Proof.
  pose proof (swipe_at_clientX_0_raises "" 300 layout_inset_100
                (on_dom (set_isSwiping true) (session (num := Q) [])) eq_refl)
    as (Hraise & Hclip & _ & Hmeant).
  refine (conj Hraise (conj Hclip _)).
  apply Hmeant; reflexivity.
Defined.

(** ** Facts about strings *)

Section StringFacts.

Import JSString.
Local Open Scope string_scope.

Lemma startsWith_spec (s q : string) :
  startsWith s q = true <-> exists post, s = q ++ post.
Proof.
  revert s. induction q as [| d q IH]; intro s; cbn.
  - split; [intros _; exists s; reflexivity | reflexivity].
  - destruct s as [| c s]; cbn.
    + split; [discriminate | intros [post H]; discriminate H].
    + rewrite andb_true_iff, Ascii.eqb_eq, IH. split.
      * intros [-> [post ->]]. exists post. reflexivity.
      * intros [post H]. injection H as -> ->. split; [reflexivity |].
        exists post. reflexivity.
Qed.

(** [includes] decides the substring relation. *)
Lemma includes_spec (s q : string) :
  includes s q = true <-> Substring q s.
Proof.
  unfold Substring. induction s as [| c s IH].
  - cbn [includes]. rewrite orb_false_r, startsWith_spec. split.
    + intros [post H]. exists "", post. exact H.
    + intros [pre [post H]]. destruct pre as [| ? ?]; [| discriminate H].
      exists post. exact H.
  - cbn [includes]. rewrite orb_true_iff, startsWith_spec, IH. split.
    + intros [[post H] | [pre [post H]]].
      * exists "", post. exact H.
      * exists (String c pre), post. cbn. rewrite H. reflexivity.
    + intros [pre [post H]]. destruct pre as [| c' pre].
      * left. exists post. exact H.
      * right. cbn in H. injection H as _ H. exists pre, post. exact H.
Qed.

Lemma includes_false (s q : string) :
  includes s q = false -> ~ Substring q s.
Proof.
  intros H Hsub. apply includes_spec in Hsub. congruence.
Qed.

Lemma length_toLowerCase (s : string) :
  String.length (toLowerCase s) = String.length s.
Proof.
  induction s as [| c s IH]; cbn; [reflexivity | rewrite IH; reflexivity].
Qed.

(** Lowering a code unit neither makes nor unmakes white space. *)
Lemma is_space_lower_unit (c : ascii) :
  is_space (lower_unit c) = is_space c.
Proof.
  destruct c as [[] [] [] [] [] [] [] []]; reflexivity.
Qed.

Lemma trimStart_toLowerCase (s : string) :
  trimStart (toLowerCase s) = toLowerCase (trimStart s).
Proof.
  induction s as [| c s IH]; cbn; [reflexivity |].
  rewrite is_space_lower_unit. destruct (is_space c); [exact IH | reflexivity].
Qed.

Lemma trimEnd_toLowerCase (s : string) :
  trimEnd (toLowerCase s) = toLowerCase (trimEnd s).
Proof.
  induction s as [| c s IH]; cbn; [reflexivity |].
  rewrite IH, is_space_lower_unit.
  destruct (trimEnd s); cbn; [destruct (is_space c) |]; reflexivity.
Qed.

(** Lowering and trimming commute, so the handler's
    [value.toLowerCase().trim()] is the lowered form of the trimmed query. *)
Lemma trim_toLowerCase (s : string) :
  trim (toLowerCase s) = toLowerCase (trim s).
Proof.
  unfold trim. rewrite trimStart_toLowerCase. apply trimEnd_toLowerCase.
Qed.

Lemma lower_unit_idempotent (c : ascii) :
  lower_unit (lower_unit c) = lower_unit c.
Proof.
  destruct c as [[] [] [] [] [] [] [] []]; reflexivity.
Qed.

Lemma toLowerCase_idempotent (s : string) :
  toLowerCase (toLowerCase s) = toLowerCase s.
Proof.
  induction s as [| c s IH]; cbn; [reflexivity |].
  rewrite lower_unit_idempotent, IH. reflexivity.
Qed.

(** The query the handler matches with is its own lowered and trimmed
    form. *)
Lemma toLowerCase_query (value : string) :
  toLowerCase (trim (toLowerCase value)) = trim (toLowerCase value).
Proof.
  rewrite <- trim_toLowerCase, toLowerCase_idempotent. reflexivity.
Qed.

Lemma toLowerCase_app (s t : string) :
  toLowerCase (s ++ t) = toLowerCase s ++ toLowerCase t.
Proof.
  induction s as [| c s IH]; cbn; [reflexivity | rewrite IH; reflexivity].
Qed.

Lemma all_spaces_toLowerCase (s : string) :
  all_spaces (toLowerCase s) = all_spaces s.
Proof.
  induction s as [| c s IH]; cbn; [reflexivity |].
  rewrite is_space_lower_unit, IH. reflexivity.
Qed.

(** The two cases of a letter are lowered to the same code unit. *)
Lemma same_letter_lower (c d : ascii) :
  same_letter c d = true -> lower_unit c = lower_unit d.
Proof.
  unfold same_letter, lower_unit.
  pose proof (ascii_nat_embedding c) as Ec.
  pose proof (ascii_nat_embedding d) as Ed.
  set (n := nat_of_ascii c) in *. set (k := nat_of_ascii d) in *.
  clearbody n k. subst c d. intro H.
  destruct (Nat.eqb_spec n k) as [-> | Hnk]; [reflexivity |].
  cbn [orb] in H. apply orb_true_iff in H.
  destruct H as [H | H]; apply andb_true_iff in H; destruct H as [H H3];
    apply andb_true_iff in H; destruct H as [H1 H2];
    apply Nat.leb_le in H1; apply Nat.leb_le in H2; apply Nat.eqb_eq in H3;
    subst.
  - replace ((65 <=? n) && (n <=? 90))%nat with true
      by (symmetry; apply andb_true_iff; split; apply Nat.leb_le; lia).
    cbn [orb].
    replace ((65 <=? n + 32) && (n + 32 <=? 90))%nat with false
      by (symmetry; apply andb_false_iff; right; apply Nat.leb_gt; lia).
    replace (192 <=? n + 32)%nat with false
      by (symmetry; apply Nat.leb_gt; lia).
    reflexivity.
  - replace ((65 <=? k) && (k <=? 90))%nat with true
      by (symmetry; apply andb_true_iff; split; apply Nat.leb_le; lia).
    cbn [orb].
    replace ((65 <=? k + 32) && (k + 32 <=? 90))%nat with false
      by (symmetry; apply andb_false_iff; right; apply Nat.leb_gt; lia).
    replace (192 <=? k + 32)%nat with false
      by (symmetry; apply Nat.leb_gt; lia).
    reflexivity.
Qed.

Lemma same_ignoring_case_lower (s t : string) :
  same_ignoring_case s t = true -> toLowerCase s = toLowerCase t.
Proof.
  revert t. induction s as [| c s IH]; intros [| d t] H; cbn in *;
    try discriminate; [reflexivity |].
  apply andb_true_iff in H. destruct H as [Hc Hs].
  rewrite (same_letter_lower c d Hc), (IH t Hs). reflexivity.
Qed.

(** White space before and after a text is trimmed away. *)
Lemma trimStart_spaces (a : string) :
  all_spaces a = true -> trimStart a = "".
Proof.
  induction a as [| c a IH]; cbn; [reflexivity |].
  intro H. apply andb_true_iff in H. destruct H as [-> Ha]. apply IH, Ha.
Qed.

Lemma trimEnd_spaces (a : string) :
  all_spaces a = true -> trimEnd a = "".
Proof.
  induction a as [| c a IH]; cbn; [reflexivity |].
  intro H. apply andb_true_iff in H. destruct H as [Hc Ha].
  rewrite (IH Ha), Hc. reflexivity.
Qed.

Lemma trimStart_app_spaces (b s : string) :
  all_spaces b = true -> trimStart (b ++ s) = trimStart s.
Proof.
  induction b as [| c b IH]; cbn; [reflexivity |].
  intro H. apply andb_true_iff in H. destruct H as [-> Hb]. apply IH, Hb.
Qed.

Lemma trimEnd_app_spaces (s a : string) :
  all_spaces a = true -> trimEnd (s ++ a) = trimEnd s.
Proof.
  intro Ha. induction s as [| c s IH]; cbn.
  - apply trimEnd_spaces, Ha.
  - rewrite IH. reflexivity.
Qed.

Lemma trim_app_spaces (b s a : string) :
  all_spaces b = true -> all_spaces a = true ->
  trim (b ++ s ++ a) = trim s.
Proof.
  intros Hb Ha. unfold trim. rewrite (trimStart_app_spaces b _ Hb).
  induction s as [| c s IH]; cbn.
  - rewrite (trimStart_spaces a Ha). reflexivity.
  - destruct (is_space c); [exact IH |].
    change (String c (s ++ a)) with (String c s ++ a).
    apply trimEnd_app_spaces, Ha.
Qed.

End StringFacts.

(** ** Search *)

Lemma Subsequence_nil_l {A : Type} (ys : list A) : Subsequence [] ys.
Proof.
  induction ys as [| y ys IH]; constructor; exact IH.
Qed.

Lemma Subsequence_filter {A : Type} (f : A -> bool) (ys : list A) :
  Subsequence (filter f ys) ys.
Proof.
  induction ys as [| y ys IH]; cbn.
  - constructor.
  - destruct (f y); constructor; exact IH.
Qed.

Section Search.

Import JSString.
Context {num : Type} {N : JSNumber num}.
Local Open Scope string_scope.

Lemma search_unfold (st : MapApp (num := num)) (value : string) :
  search st value
  = if (String.length (trim (toLowerCase value)) <? 2)%nat then []
    else filter (matchesQuery (trim (toLowerCase value))) (markersData st).
Proof.
  unfold search, handleSearchInput.
  cbn [on_dom set_dom set_searchInput set_searchResults dom searchInput
       searchResults markersData].
  destruct (Nat.ltb _ _); [reflexivity |].
  cbn [on_dom set_dom set_searchInput set_searchResults dom searchInput
       searchResults markersData].
  rewrite forEach_appendChild_map. cbn [app].
  rewrite map_map. cbn [createSearchItem item_marker]. apply map_id.
Qed.

(** The records a search lists are those whose lowered name or label
    contains the query the handler has made of what was typed. *)
Lemma In_search (st : MapApp (num := num)) (value : string)
    (m : MarkerRecord) :
  In m (search st value)
  <-> In m (markersData st)
      /\ (2 <= String.length (trim (toLowerCase value)))%nat
      /\ (Substring (trim (toLowerCase value)) (toLowerCase (nom m))
          \/ Substring (trim (toLowerCase value))
               (toLowerCase (position_approx m))).
Proof.
  rewrite search_unfold.
  destruct (Nat.ltb_spec (String.length (trim (toLowerCase value))) 2)
    as [Hlt | Hge].
  - cbn. split; [tauto | intros [_ [H _]]; lia].
  - rewrite filter_In. unfold matchesQuery.
    rewrite orb_true_iff, !includes_spec. tauto.
Qed.

Lemma search_short (st : MapApp (num := num)) (value : string) :
  (String.length (trim (toLowerCase value)) < 2)%nat -> search st value = [].
Proof.
  intro H. rewrite search_unfold. apply Nat.ltb_lt in H. rewrite H.
  reflexivity.
Qed.

(** C5, as the code has it. The records listed for a query are exactly those
    of the loaded list whose name or position label contains, case ignored,
    the query without its outer white space, in the order of the list;
    there are none when the query, lowered and trimmed, has fewer than 2
    code units.  That is the search as the specification words it, run on
    the lowered and trimmed query. *)
Theorem search_matches_trimmed_query (st : MapApp (num := num))
    (value : string) :
  search st value
  = search_as_stated (markersData st) (trim (toLowerCase value))
  /\ (forall m,
        In m (search st value)
        <-> In m (markersData st)
            /\ (2 <= String.length (trim (toLowerCase value)))%nat
            /\ (ContainsIgnoringCase (nom m) (trim value)
                \/ ContainsIgnoringCase (position_approx m) (trim value)))
  /\ Subsequence (search st value) (markersData st)
  /\ ((String.length (trim (toLowerCase value)) < 2)%nat ->
      search st value = []).
Proof.
  refine (conj _ (conj _ (conj _ (search_short st value)))).
  - rewrite search_unfold. unfold search_as_stated.
    rewrite toLowerCase_query. reflexivity.
  - intro m. rewrite In_search. unfold ContainsIgnoringCase.
    rewrite <- trim_toLowerCase. reflexivity.
  - rewrite search_unfold.
    destruct (Nat.ltb _ _);
      [apply Subsequence_nil_l | apply Subsequence_filter].
Qed.

(** C10. The handler lowers and trims what was typed before it checks the
    length and before it matches.  Nothing is listed when the lowered and
    trimmed form has fewer than 2 code units (for [" a "], of length 3,
    whatever the records); otherwise the records listed are those whose
    lowered name or label contains that form.  So the case of the letters
    typed and the white space around them make no difference: two queries
    that differ in the case of letters [A]-[Z] only list the same records,
    and so do a query and the same query between white space. *)
Theorem search_normalises_query (st : MapApp (num := num)) (value : string) :
  ((String.length (trim (toLowerCase value)) < 2)%nat -> search st value = [])
  /\ (forall m,
        In m (search st value)
        <-> In m (markersData st)
            /\ (2 <= String.length (trim (toLowerCase value)))%nat
            /\ (Substring (trim (toLowerCase value)) (toLowerCase (nom m))
                \/ Substring (trim (toLowerCase value))
                     (toLowerCase (position_approx m))))
  /\ (forall value',
        same_ignoring_case value value' = true ->
        search st value' = search st value)
  /\ (forall before after,
        all_spaces before = true -> all_spaces after = true ->
        search st (before ++ value ++ after) = search st value)
  /\ String.length " a " = 3%nat
  /\ trim (toLowerCase " a ") = "a"
  /\ search st " a " = [].
Proof.
  refine (conj (search_short st value)
            (conj (In_search st value)
               (conj _ (conj _ (conj eq_refl (conj eq_refl _)))))).
  - intros value' H. rewrite !search_unfold.
    rewrite (same_ignoring_case_lower value value' H). reflexivity.
  - intros before after Hb Ha. rewrite !search_unfold.
    rewrite !toLowerCase_app, trim_app_spaces;
      [reflexivity | rewrite all_spaces_toLowerCase; assumption ..].
  - apply search_short. apply Nat.ltb_lt. reflexivity.
Qed.

End Search.

(** Counterexample to C5 as stated, a query with outer white space: for
    [" iron"] the handler lists Ironforge, whose name and label do not
    contain [" iron"] with its space. *)
Lemma search_untrimmed_query_differs :
  search (session (num := Q) [Ironforge]) " iron" = [Ironforge]
  /\ search_as_stated (num := Q) [Ironforge] " iron" = []
  /\ ~ JSString.ContainsIgnoringCase (nom (Ironforge (num := Q))) " iron"
  /\ ~ JSString.ContainsIgnoringCase
         (position_approx (Ironforge (num := Q))) " iron".
Proof.
  repeat apply conj; try reflexivity;
    apply includes_false; reflexivity.
Qed.

(** The filter "Capitals" is selected, the map is dragged and zoomed, and
    the view is reset: the markers rendered are the capitals, none of them
    active, the filter is still "Capitals" and the view is the initial
    one. *)
Example reset_after_pan_and_zoom :
  map data_name
    (markersContainer
       (dom (run filter_pan_zoom_reset
               (session (num := Q) [Ironforge; Thelsamar]))))
  = ["Ironforge"%string]
  /\ getActiveFilter
       (run filter_pan_zoom_reset (session (num := Q) [Ironforge; Thelsamar]))
     = "Capitals"%string
  /\ activeMarker
       (run filter_pan_zoom_reset (session (num := Q) [Ironforge; Thelsamar]))
     = None
  /\ viewport
       (run filter_pan_zoom_reset (session (num := Q) [Ironforge; Thelsamar]))
     = (1.0, 0, 0).
Proof.
  repeat split; reflexivity.
Qed.

(** The query "iron" finds a record by its name and another by its
    label. *)
Example search_iron :
  search (session (num := Q) [Ironforge; Origin; Thelsamar]) "iron"
  = [Ironforge; Thelsamar].
Proof.
  reflexivity.
Qed.


(** ** The scenarios in binary64

    The same code at the numbers the browser computes with. *)

Section Binary64Scenarios.

Local Open Scope js_scope.

(** The wheel tick at (100, 100): the point under the pointer ends more
    than 0.9 pixels away. *)
Example wheel_zoom_moves_pivot_binary64 :
  (lit 100.9
   <? screen_of
        (scale (handleZoom wheel_in_at_100_100 layout_1000x800
                  (session (num := PrimFloat.float) [])))
        (translateX (handleZoom wheel_in_at_100_100 layout_1000x800
                       (session (num := PrimFloat.float) [])))
        (content_under (session (num := PrimFloat.float) []) (lit 100)))
  = true.
Proof.
  vm_compute. reflexivity.
Qed.

(** The drag by 5 pixels at scale 1. *)
Example pan_at_scale_1_binary64 :
  viewport (run drag_by_5 (session (num := PrimFloat.float) []))
  = (lit 1, lit 5, lit 0).
Proof.
  vm_compute. reflexivity.
Qed.

(** The jump to the record at (50%, 50%), without rounding. *)
Example jump_centres_marker_binary64 :
  viewport
    (state_of (jumpToMarker Ironforge layout_1000x800
                 (session (num := PrimFloat.float) [Ironforge])))
  = (lit 2, lit (-500), lit (-400))
  /\ screen_of (lit 2) (lit (-500)) (lit 50 / lit 100 * lit 1000)
     = lit (num := PrimFloat.float) 500
  /\ screen_of (lit 2) (lit (-400)) (lit 50 / lit 100 * lit 800)
     = lit (num := PrimFloat.float) 400.
Proof.
  repeat split; vm_compute; reflexivity.
Qed.

(** The jump to the record at the corner: the translation is 500, and the
    clamp would make it 0. *)
Example jump_is_not_clamped_binary64 :
  translateX
    (state_of (jumpToMarker Origin layout_1000x800
                 (session (num := PrimFloat.float) [Origin])))
  = lit 500
  /\ translateX
       (clampTranslations layout_1000x800
          (state_of (jumpToMarker Origin layout_1000x800
                       (session (num := PrimFloat.float) [Origin]))))
     = lit 0.
Proof.
  split; vm_compute; reflexivity.
Qed.

(** The swipe with the pointer to the right of the wrapper. *)
Example swipe_beyond_right_edge_binary64 :
  swipePercent (num := PrimFloat.float) layout_1000x800 (lit 1500) = lit 100.
Proof.
  vm_compute. reflexivity.
Qed.

(** The swipe over a wrapper without width: the percent is 0/0, not a
    number, and the clip and the separator are not moved. *)
Example swipe_over_empty_wrapper_binary64 :
  PrimFloat.is_nan
    (swipePercent (num := PrimFloat.float)
       (wrapper_layout (lit 0) (lit 0) (container_at_rest (lit 0) (lit 0)))
       (lit 5))
  = true
  /\ onSwipe (MouseEvent "" (lit 5) (lit 5))
       (wrapper_layout (lit 0) (lit 0) (container_at_rest (lit 0) (lit 0)))
       (startSwipe (session (num := PrimFloat.float) []))
     = Returned (startSwipe (session (num := PrimFloat.float) [])).
Proof.
  split; vm_compute; reflexivity.
Qed.

(** A jump to a record so far off the map that the translation overflows:
    the state holds scale 2 and an infinite [translateX], and the transform
    is the one from before the jump, which the browser has kept. *)
Example jump_overflow_binary64 :
  is_finite (left (Far (num := PrimFloat.float))) = true
  /\ scale (state_of (jumpToMarker Far layout_1000x800
                        (session (num := PrimFloat.float) [Far])))
     = lit 2
  /\ is_finite
       (translateX (state_of (jumpToMarker Far layout_1000x800
                                (session (num := PrimFloat.float) [Far]))))
     = false
  /\ transform
       (dom (state_of (jumpToMarker Far layout_1000x800
                         (session (num := PrimFloat.float) [Far]))))
     = (lit 0, lit 0, lit 1)
  /\ transform (dom (session (num := PrimFloat.float) [Far]))
     = (lit 0, lit 0, lit 1).
Proof.
  repeat split; vm_compute; reflexivity.
Qed.

(** A drag from 0.1 through 0.2 to 0.3: the two steps add up to the
    double below 0.2, within 1e-15 of it. *)
Example pan_moves_round_binary64 :
  (translateX
     (drag_along [(lit 0.2, lit 0.5); (lit 0.3, lit 0.5)]
        (state_of (handlePanStart (mouse_at (lit 0.1, lit 0.5))
                     (session (num := PrimFloat.float) []))))
   === lit 0.2) = false
  /\ (lit 0.2
      - translateX
          (drag_along [(lit 0.2, lit 0.5); (lit 0.3, lit 0.5)]
             (state_of (handlePanStart (mouse_at (lit 0.1, lit 0.5))
                          (session (num := PrimFloat.float) []))))
      <? lit 0.000000000000001) = true.
Proof.
  split; vm_compute; reflexivity.
Qed.

(** The buttons [+] and [-] from scale 1.7: the scale comes back to the
    double below 1.7, within 1e-15 of it. *)
Example zoom_in_then_out_binary64 :
  (scale (zoom "out" layout_1000x800
            (zoom "in" layout_1000x800
               (set_scale (lit 1.7) (session (num := PrimFloat.float) []))))
   === lit 1.7) = false
  /\ (lit 1.7
      - scale (zoom "out" layout_1000x800
                 (zoom "in" layout_1000x800
                    (set_scale (lit 1.7)
                       (session (num := PrimFloat.float) []))))
      <? lit 0.000000000000001) = true.
Proof.
  split; vm_compute; reflexivity.
Qed.

End Binary64Scenarios.

(** * Part III: further properties of the code *)

(** ** States a session can reach *)

Section Reachable.

Context {num : Type} {N : JSNumber num}.

(** Start-up on fetched records is the application started on them. *)
Lemma init_loaded (records : list MarkerRecord) (d : Dom (num := num)) :
  init (Some records) (constructed d) = new_MapApp records d.
Proof.
  reflexivity.
Qed.

Lemma viewport_init (fetched : option (list MarkerRecord))
    (d : Dom (num := num)) :
  viewport (init fetched (constructed d)) = (lit 1.0, lit 0, lit 0).
Proof.
  unfold init, createFilterButtons, viewport.
  cbn [on_dom set_dom scale translateX translateY].
  rewrite scale_renderMap, translateX_renderMap, translateY_renderMap.
  destruct fetched; reflexivity.
Qed.

(** [renderMap] leaves the transform up to date. *)
Lemma Rendered_renderMap (st : MapApp (num := num)) : Rendered (renderMap st).
Proof.
  unfold Rendered, finite_viewport.
  rewrite scale_renderMap, translateX_renderMap, translateY_renderMap.
  intro Hfinite. unfold renderMap. rewrite Hfinite. reflexivity.
Qed.

(** What touches neither the viewport nor the transform keeps it so. *)
Lemma Rendered_frame (st st' : MapApp (num := num)) :
  viewport st' = viewport st ->
  transform (dom st') = transform (dom st) ->
  Rendered st -> Rendered st'.
Proof.
  unfold Rendered, finite_viewport, viewport. intros Hv Ht H.
  injection Hv as -> -> ->. rewrite Ht. exact H.
Qed.

Lemma Rendered_step (L : Layout) (a : Action) (st : MapApp (num := num)) :
  Rendered st -> Rendered (step L a st).
Proof.
  intro H. destruct a; cbn [step]; try exact H.
  - unfold handlePanStart.
    destruct (String.eqb _ _); [exact H |].
    destruct (clientX_or_touch e); [| exact H].
    destruct (clientY_or_touch e); exact H.
  - unfold handlePanMove.
    destruct (negb _); [exact H |].
    destruct (clientX_or_touch e); [| exact H].
    destruct (clientY_or_touch e); [| exact H].
    cbn [state_of].
    eapply Rendered_frame; [| | apply Rendered_renderMap]; reflexivity.
  - unfold handleZoom. destruct (strict_eq _ _); [exact H |].
    apply Rendered_renderMap.
  - unfold zoom. destruct (strict_eq _ _); [exact H |].
    apply Rendered_renderMap.
  - unfold resetView.
    eapply Rendered_frame; [| | apply Rendered_renderMap]; reflexivity.
  - destruct (nth_error _ _); exact H.
  - unfold handleSearchInput. destruct (Nat.ltb _ _); exact H.
  - unfold jumpToMarker, showTooltip.
    destruct (querySelector_data_name _ _ _) as [| [el |]]; cbn [state_of];
      [exact H | apply Rendered_renderMap | exact H].
  - unfold onSwipe. destruct (negb _); [exact H |].
    destruct (clientX_or_touch e); [| exact H].
    destruct (swipePercent_is_finite _ _); exact H.
Qed.

Lemma Rendered_run (actions : list (Layout * Action))
    (st : MapApp (num := num)) :
  Rendered st -> Rendered (run actions st).
Proof.
  revert st. induction actions as [| [L a] rest IH]; intros st Hst.
  - exact Hst.
  - cbn [run]. apply IH, Rendered_step, Hst.
Qed.

(** X3. The document does not show a stale view: after start-up and after
    every listener of a session, whether it returned or raised, whenever the
    translation and the scale of the state are finite numbers the transform
    of the map container is that translation and that scale.  (The browser
    refuses a transform written from NaN or an infinity and keeps the one
    before.) *)
Theorem transform_shows_viewport (fetched : option (list MarkerRecord))
    (d : Dom (num := num)) (actions : list (Layout * Action)) :
  finite_viewport (run actions (init fetched (constructed d))) = true ->
  transform (dom (run actions (init fetched (constructed d))))
  = (translateX (run actions (init fetched (constructed d))),
     translateY (run actions (init fetched (constructed d))),
     scale (run actions (init fetched (constructed d)))).
Proof.
  apply Rendered_run.
  unfold init, createFilterButtons.
  eapply Rendered_frame; [| | apply Rendered_renderMap]; reflexivity.
Qed.

End Reachable.

Lemma transform_shows_viewport_witness :
  finite_viewport
    (run drag_by_5
       (init (num := PrimFloat.float) (Some []) (constructed blank_document)))
  = true
  /\ transform
       (dom (run drag_by_5
               (init (num := PrimFloat.float) (Some [])
                  (constructed blank_document))))
     = (lit 5, lit 0, lit 1).
Proof.
  split; [vm_compute; reflexivity |].
  rewrite (transform_shows_viewport (num := PrimFloat.float) (Some [])
             blank_document drag_by_5);
    vm_compute; reflexivity.
Defined.

(** X1. In every state a session reaches from start-up, whatever was
    fetched, the scale is between 1 and 4. *)
Theorem reachable_scale_within_limits
    (fetched : option (list (MarkerRecord (num := Q)))) (d : Dom)
    (actions : list (Layout * Action)) :
  1 <= scale (run actions (init fetched (constructed d))) <= 4.
Proof.
  apply scale_limits_run.
  destruct fetched; cbn; lra.
Qed.

(** X2. In every state a session without a pan move reaches from start-up,
    the translation is (0,0) whenever the scale is 1. *)
Theorem reachable_centred_without_pan
    (fetched : option (list (MarkerRecord (num := Q)))) (d : Dom)
    (actions : list (Layout * Action)) :
  Forall (fun La => forall e, snd La <> PanMove e) actions ->
  Centred (run actions (init fetched (constructed d))).
Proof.
  intro Hall. apply Centred_run; [exact Hall |].
  intros _. destruct fetched; split; reflexivity.
Qed.

Lemma reachable_centred_without_pan_witness :
  Forall (fun La => forall e, snd La <> PanMove e)
    (wheel_out_reset (num := Q))
  /\ Centred
       (run wheel_out_reset
          (init (Some [Ironforge]) (constructed blank_document))).
Proof.
  assert (H : Forall (fun La => forall e, snd La <> PanMove e)
                (wheel_out_reset (num := Q)))
    by (repeat constructor; intros e; discriminate).
  split; [exact H |].
  apply (reachable_centred_without_pan (Some [Ironforge]) blank_document _ H).
Defined.

(** ** The clamp and the zoom handlers *)

Lemma scaled_margin_nonneg (w s : Q) : 0 <= w -> 1 <= s -> 0 <= w * s - w.
Proof.
  intros Hw Hs. setoid_replace (w * s - w) with (w * (s - 1)) by ring.
  apply Qmult_le_0_compat; lra.
Qed.

Lemma bound_in_range (t m : Q) :
  0 <= m -> - m <= Qmax (Qmin t 0) (- m) <= 0.
Proof.
  intro Hm. split.
  - apply Q.le_max_r.
  - apply Q.max_lub; [apply Q.le_min_r | lra].
Qed.

Lemma bound_fixes_range (t m : Q) :
  - m <= t <= 0 -> Qmax (Qmin t 0) (- m) == t.
Proof.
  intro H. rewrite Q.min_l by apply H. apply Q.max_l, H.
Qed.

Lemma Covers_clampTranslations (L : Layout (num := Q)) (st : MapApp) :
  1 <= scale st -> 0 <= clientWidth L -> 0 <= clientHeight L ->
  Covers L (clampTranslations L st).
Proof.
  intros Hs Hw Hh. unfold Covers. rewrite scale_clampTranslations.
  pose proof (scaled_margin_nonneg _ _ Hw Hs) as Hmw.
  pose proof (scaled_margin_nonneg _ _ Hh Hs) as Hmh.
  unfold clampTranslations. js_Q.
  destruct (Qltb 1 (scale st)) eqn:Hlt;
    cbn [translateX translateY set_translateX set_translateY].
  - split; apply bound_in_range; assumption.
  - apply Qltb_false in Hlt.
    assert (H1 : scale st == 1) by lra.
    assert (Hzw : clientWidth L * scale st - clientWidth L == 0)
      by (rewrite H1; ring).
    assert (Hzh : clientHeight L * scale st - clientHeight L == 0)
      by (rewrite H1; ring).
    rewrite Hzw, Hzh. split; split; lra.
Qed.

Lemma clampTranslations_fixes_Covers (L : Layout (num := Q)) (st : MapApp) :
  1 <= scale st -> Covers L st ->
  translateX (clampTranslations L st) == translateX st
  /\ translateY (clampTranslations L st) == translateY st.
Proof.
  intros Hs [Hx Hy]. unfold clampTranslations. js_Q.
  destruct (Qltb 1 (scale st)) eqn:Hlt;
    cbn [translateX translateY set_translateX set_translateY].
  - split; apply bound_fixes_range; assumption.
  - apply Qltb_false in Hlt.
    assert (H1 : scale st == 1) by lra.
    assert (Hzw : clientWidth L * scale st - clientWidth L == 0)
      by (rewrite H1; ring).
    assert (Hzh : clientHeight L * scale st - clientHeight L == 0)
      by (rewrite H1; ring).
    rewrite Hzw in Hx. rewrite Hzh in Hy. split; lra.
Qed.

(** X4. At a scale of at least 1, in a wrapper whose client width and
    height are not negative, [clampTranslations] leaves a translation with
    which the scaled map covers the wrapper on both axes, and it leaves a
    translation that already does so as it is. *)
Theorem clampTranslations_covers (L : Layout (num := Q)) (st : MapApp) :
  1 <= scale st -> 0 <= clientWidth L -> 0 <= clientHeight L ->
  Covers L (clampTranslations L st)
  /\ (Covers L st ->
      translateX (clampTranslations L st) == translateX st
      /\ translateY (clampTranslations L st) == translateY st).
Proof.
  intros Hs Hw Hh. split.
  - apply Covers_clampTranslations; assumption.
  - apply clampTranslations_fixes_Covers, Hs.
Qed.

Lemma clampTranslations_covers_witness :
  Covers layout_1000x800
    (clampTranslations layout_1000x800 (run drag_by_5 (session (num := Q) []))).
Proof.
  apply (clampTranslations_covers layout_1000x800
           (run drag_by_5 (session (num := Q) []))).
  - cbn. lra.
  - cbn. lra.
  - cbn. lra.
Defined.

(** X5. In a wrapper whose client width and height are not negative, a
    wheel zoom and a button zoom each either change nothing (the scale
    limit is reached) or end with the scaled map covering the wrapper,
    wherever a pan had left it. *)
Theorem zoom_covers_wrapper (L : Layout (num := Q)) (st : MapApp)
    (e : WheelEvent) (direction : string) :
  0 <= clientWidth L -> 0 <= clientHeight L ->
  (handleZoom e L st = st \/ Covers L (handleZoom e L st))
  /\ (zoom direction L st = st \/ Covers L (zoom direction L st)).
Proof.
  intros Hw Hh. split.
  - unfold handleZoom. destruct (strict_eq _ _); [left; reflexivity | right].
    apply (Covers_clampTranslations L); [| exact Hw | exact Hh].
    cbn [scale set_scale]. js_Q. apply limited_scale_bounds.
  - unfold zoom. destruct (strict_eq _ _); [left; reflexivity | right].
    apply (Covers_clampTranslations L); [| exact Hw | exact Hh].
    cbn [scale set_scale]. js_Q. apply limited_scale_bounds.
Qed.

Lemma zoom_covers_wrapper_witness :
  Covers layout_1000x800
    (handleZoom wheel_in_at_100_100 layout_1000x800
       (run drag_by_5 (session (num := Q) [])))
  /\ Covers layout_1000x800
       (zoom "in" layout_1000x800 (run drag_by_5 (session (num := Q) []))).
Proof.
  destruct (zoom_covers_wrapper layout_1000x800
              (run drag_by_5 (session (num := Q) []))
              wheel_in_at_100_100 "in") as [[H1 | H1] [H2 | H2]];
    try (cbn; lra); try (exfalso; vm_compute in H1; discriminate H1);
    try (exfalso; vm_compute in H2; discriminate H2).
  split; assumption.
Defined.


Lemma limited_above (x : Q) : 4 <= x -> Qmax 1.0 (Qmin 4.0 x) == 4.
Proof.
  intro H. rewrite Q.min_l by lra. rewrite Q.max_r by lra. reflexivity.
Qed.

Lemma limited_below (x : Q) : x <= 1 -> Qmax 1.0 (Qmin 4.0 x) == 1.
Proof.
  intro H. rewrite Q.min_r by lra. rewrite Q.max_l by lra. reflexivity.
Qed.



(** X8. At the upper limit a zoom in changes nothing at all: at scale 4 a
    wheel tick with negative [deltaY] and the button [+] return the state
    they were given. *)
Theorem zoom_in_at_max_changes_nothing (e : WheelEvent (num := Q))
    (L : Layout) (st : MapApp) :
  scale st == 4 -> deltaY e < 0 ->
  handleZoom e L st = st /\ zoom "in" L st = st.
Proof.
  intros Hs He. split.
  - unfold handleZoom. js_Q.
    replace (Qltb (deltaY e) 0) with true by (symmetry; apply Qltb_true, He).
    replace (Qeq_bool (Qmax 1.0 (Qmin 4.0 (scale st * 1.1))) (scale st))
      with true; [reflexivity |].
    symmetry. apply Qeq_bool_iff. rewrite limited_above; lra.
  - unfold zoom. js_Q. cbn [String.eqb Ascii.eqb Bool.eqb].
    replace (Qeq_bool (Qmax 1.0 (Qmin 4.0 (scale st * 1.25))) (scale st))
      with true; [reflexivity |].
    symmetry. apply Qeq_bool_iff. rewrite limited_above; lra.
Qed.

(** X9. At the lower limit a zoom out changes nothing at all, so it does
    not clamp either: at scale 1 a wheel tick whose [deltaY] is not
    negative and the button [-] return the state they were given, with the
    translation a pan may have left. *)
Theorem zoom_out_at_min_changes_nothing (e : WheelEvent (num := Q))
    (L : Layout) (st : MapApp) :
  scale st == 1 -> 0 <= deltaY e ->
  handleZoom e L st = st /\ zoom "out" L st = st.
Proof.
  intros Hs He. split.
  - unfold handleZoom. js_Q.
    replace (Qltb (deltaY e) 0) with false by (symmetry; apply Qltb_false, He).
    replace (Qeq_bool (Qmax 1.0 (Qmin 4.0 (scale st * 0.9))) (scale st))
      with true; [reflexivity |].
    symmetry. apply Qeq_bool_iff. rewrite limited_below; lra.
  - unfold zoom. js_Q. cbn [String.eqb Ascii.eqb Bool.eqb].
    replace (Qeq_bool (Qmax 1.0 (Qmin 4.0 (scale st * 0.8))) (scale st))
      with true; [reflexivity |].
    symmetry. apply Qeq_bool_iff. rewrite limited_below; lra.
Qed.

Lemma zoom_in_at_max_changes_nothing_witness :
  handleZoom wheel_in_at_100_100 layout_1000x800
    (set_scale 4 (session (num := Q) []))
  = set_scale 4 (session (num := Q) [])
  /\ zoom "in" layout_1000x800 (set_scale 4 (session (num := Q) []))
     = set_scale 4 (session (num := Q) []).
Proof.
  apply (zoom_in_at_max_changes_nothing wheel_in_at_100_100 layout_1000x800
           (set_scale 4 (session (num := Q) []))).
  - reflexivity.
  - reflexivity.
Defined.

Lemma zoom_out_at_min_changes_nothing_witness :
  handleZoom {| deltaY := 100; wheel_clientX := 100; wheel_clientY := 100 |}
    layout_1000x800 (run drag_by_5 (session (num := Q) []))
  = run drag_by_5 (session (num := Q) [])
  /\ zoom "out" layout_1000x800 (run drag_by_5 (session (num := Q) []))
     = run drag_by_5 (session (num := Q) []).
Proof.
  apply (zoom_out_at_min_changes_nothing
           {| deltaY := 100; wheel_clientX := 100; wheel_clientY := 100 |}
           layout_1000x800 (run drag_by_5 (session (num := Q) []))).
  - reflexivity.
  - vm_compute. discriminate.
Defined.



Lemma quotient_zero (x y : Q) : ~ y == 0 -> x / y == 0 -> x == 0.
Proof.
  intros Hy H. setoid_replace x with (x / y * y) by (field; exact Hy).
  rewrite H. ring.
Qed.

(** X6. When a wheel zoom changes the scale and its clamp has nothing to
    do, the map point under the pointer is drawn where it was before if and
    only if the pointer is on the left edge of the container's box (pivot
    0): anywhere else it moves, by [p * (s' - s)^2 / (s * s')]. *)
Theorem wheel_zoom_keeps_pivot_only_at_edge (e : WheelEvent (num := Q))
    (L : Layout) (st : MapApp) :
  0 < scale st ->
  ~ wheelScale e st == scale st ->
  1 < wheelScale e st ->
  - (clientWidth L * wheelScale e st - clientWidth L)
    <= translateX st
       - cursorX e L * (wheelScale e st - scale st) / wheelScale e st
    <= 0 ->
  (screen_of (scale (handleZoom e L st)) (translateX (handleZoom e L st))
     (content_under st (cursorX e L))
   == screen_of (scale st) (translateX st) (content_under st (cursorX e L))
   <-> cursorX e L == 0)
  /\ screen_of (scale (handleZoom e L st)) (translateX (handleZoom e L st))
       (content_under st (cursorX e L))
     - screen_of (scale st) (translateX st) (content_under st (cursorX e L))
     == cursorX e L * (wheelScale e st - scale st)
        * (wheelScale e st - scale st) / (scale st * wheelScale e st).
Proof.
  intros Hs Hne Hgt Hrange.
  pose proof (handleZoom_pivot_shift e L st Hs Hne Hgt Hrange) as Hshift.
  split; [| exact Hshift].
  set (after := screen_of (scale (handleZoom e L st))
                  (translateX (handleZoom e L st))
                  (content_under st (cursorX e L))) in *.
  set (before := screen_of (scale st) (translateX st)
                   (content_under st (cursorX e L))) in *.
  assert (Hd : ~ wheelScale e st - scale st == 0) by (intro H; apply Hne; lra).
  assert (Hss : ~ scale st * wheelScale e st == 0).
  { intro H. apply Qmult_integral in H. destruct H; lra. }
  split.
  - intro Heq.
    assert (H0 : cursorX e L * (wheelScale e st - scale st)
                 * (wheelScale e st - scale st) == 0).
    { apply (quotient_zero _ _ Hss). rewrite <- Hshift, Heq. ring. }
    apply Qmult_integral in H0. destruct H0 as [H0 | H0]; [| tauto].
    apply Qmult_integral in H0. destruct H0 as [H0 | H0]; [exact H0 | tauto].
  - intro Hp.
    assert (H0 : after - before == 0).
    { rewrite Hshift, Hp. field. split; lra. }
    lra.
Qed.

Lemma wheel_zoom_keeps_pivot_only_at_edge_witness :
  ~ cursorX wheel_in_at_100_100 layout_1000x800 == 0
  /\ ~ screen_of
         (scale (handleZoom wheel_in_at_100_100 layout_1000x800
                   (session (num := Q) [])))
         (translateX (handleZoom wheel_in_at_100_100 layout_1000x800
                        (session (num := Q) [])))
         (content_under (session (num := Q) [])
            (cursorX wheel_in_at_100_100 layout_1000x800))
       == screen_of (scale (session (num := Q) []))
            (translateX (session (num := Q) []))
            (content_under (session (num := Q) [])
               (cursorX wheel_in_at_100_100 layout_1000x800)).
Proof.
  assert (Hp : ~ cursorX wheel_in_at_100_100 layout_1000x800 == 0)
    by (vm_compute; discriminate).
  split; [exact Hp |].
  destruct (wheel_zoom_keeps_pivot_only_at_edge wheel_in_at_100_100
              layout_1000x800 (session (num := Q) [])) as [[H _] _].
  - reflexivity.
  - vm_compute. discriminate.
  - reflexivity.
  - split; vm_compute; discriminate.
  - intro Heq. apply Hp, H, Heq.
Defined.

(** ** The pan gesture *)


Lemma truthy_zero (x : Q) : x == 0 -> truthy x = false.
Proof.
  intro H. js_Q. apply Qeq_bool_iff in H. rewrite H. reflexivity.
Qed.






(** X11. A mouse position whose [clientX] is exactly 0 is read as missing:
    each handler that reads it goes on to [e.touches], which a mouse event
    does not have, and raises.  A pan start has by then switched the drag
    on and keeps the last position of an earlier drag; a pan move and a
    swipe leave the state as it was. *)
Theorem mouse_at_zero_raises (id : string) (x y : Q) (L : Layout)
    (st : MapApp) :
  x == 0 ->
  (String.eqb id "overlay-separator" = false ->
   handlePanStart (MouseEvent id x y) st = Thrown (set_isDragging true st))
  /\ (isDragging st = true ->
      handlePanMove (MouseEvent id x y) st = Thrown st)
  /\ (isSwiping (dom st) = true ->
      onSwipe (MouseEvent id x y) L st = Thrown st).
Proof.
  intro Hx. pose proof (truthy_zero x Hx) as Ht. repeat split.
  - intro Hid. unfold handlePanStart, clientX_or_touch. cbn [target_id].
    rewrite Hid, Ht. reflexivity.
  - intro Hd. unfold handlePanMove, clientX_or_touch.
    rewrite Hd, Ht. reflexivity.
  - intro Hsw. unfold onSwipe, clientX_or_touch.
    rewrite Hsw, Ht. reflexivity.
Qed.

Lemma mouse_at_zero_raises_witness :
  handlePanStart (MouseEvent "map-container" 0 300) (session (num := Q) [])
  = Thrown (set_isDragging true (session (num := Q) []))
  /\ onSwipe (MouseEvent "overlay-separator" 0 300) layout_1000x800
       (startSwipe (session (num := Q) []))
     = Thrown (startSwipe (session (num := Q) [])).
Proof.
  split.
  - apply (mouse_at_zero_raises "map-container" 0 300 layout_1000x800
             (session (num := Q) [])); reflexivity.
  - apply (mouse_at_zero_raises "overlay-separator" 0 300 layout_1000x800
             (startSwipe (session (num := Q) []))); reflexivity.
Defined.

(** ** Markers, filters and the jump *)

Section Markers.

Context {num : Type} {N : JSNumber num}.
Local Open Scope string_scope.

Lemma filter_all {A : Type} (f : A -> bool) (l : list A) :
  (forall x, In x l -> f x = true) -> filter f l = l.
Proof.
  induction l as [| a l IH]; intro H; cbn; [reflexivity |].
  rewrite (H a (or_introl eq_refl)), IH; [reflexivity |].
  intros x Hx. apply H. right. exact Hx.
Qed.

Lemma filter_none {A : Type} (f : A -> bool) (l : list A) :
  (forall x, In x l -> f x = false) -> filter f l = [].
Proof.
  induction l as [| a l IH]; intro H; cbn; [reflexivity |].
  rewrite (H a (or_introl eq_refl)). apply IH.
  intros x Hx. apply H. right. exact Hx.
Qed.

Lemma find_all_false {A : Type} (f : A -> bool) (l : list A) :
  (forall x, In x l -> f x = false) -> find f l = None.
Proof.
  induction l as [| a l IH]; intro H; cbn; [reflexivity |].
  rewrite (H a (or_introl eq_refl)). apply IH.
  intros x Hx. apply H. right. exact Hx.
Qed.

Lemma find_after_false {A : Type} (f : A -> bool) (pre post : list A)
    (x : A) :
  (forall y, In y pre -> f y = false) -> f x = true ->
  find f (pre ++ x :: post) = Some x.
Proof.
  induction pre as [| a pre IH]; intros H Hx; cbn.
  - rewrite Hx. reflexivity.
  - rewrite (H a (or_introl eq_refl)). apply IH; [| exact Hx].
    intros y Hy. apply H. right. exact Hy.
Qed.

Lemma marker_data_createMarker (active : option MarkerRecord)
    (l : list (MarkerRecord (num := num))) :
  map marker_data (map (createMarker active) l) = l.
Proof.
  rewrite map_map. cbn [createMarker marker_data]. apply map_id.
Qed.

(** X12. [renderMarkers] replaces what was rendered: under ['all'] the
    container holds an element for every record, in the order of the data;
    under a category, for exactly the records of that category; an element
    is of class [active] exactly when the active marker has its name; and
    rendering again changes nothing. *)
Theorem renderMarkers_lists_visible (filterCategory : string)
    (st : MapApp (num := num)) :
  map marker_data (markersContainer (dom (renderMarkers "all" st)))
  = markersData st
  /\ (filterCategory <> "all" ->
      forall m,
        In m (map marker_data
                (markersContainer (dom (renderMarkers filterCategory st))))
        <-> In m (markersData st) /\ categorie m = filterCategory)
  /\ Subsequence
       (map marker_data
          (markersContainer (dom (renderMarkers filterCategory st))))
       (markersData st)
  /\ (forall el,
        In el (markersContainer (dom (renderMarkers filterCategory st))) ->
        class_active el = true
        <-> exists a, activeMarker st = Some a /\ nom a = data_name el)
  /\ renderMarkers filterCategory (renderMarkers filterCategory st)
     = renderMarkers filterCategory st.
Proof.
  refine (conj _ (conj _ (conj _ (conj _ _)))).
  - rewrite markersContainer_renderMarkers, marker_data_createMarker.
    apply filter_all. reflexivity.
  - intros Hc m.
    rewrite markersContainer_renderMarkers, marker_data_createMarker.
    rewrite filter_In. unfold isVisible.
    apply String.eqb_neq in Hc. rewrite Hc. cbn [orb].
    rewrite String.eqb_eq. reflexivity.
  - rewrite markersContainer_renderMarkers, marker_data_createMarker.
    apply Subsequence_filter.
  - intros el Hel. rewrite markersContainer_renderMarkers in Hel.
    apply in_map_iff in Hel. destruct Hel as (m & <- & _).
    cbn [createMarker class_active data_name].
    destruct (activeMarker st) as [a |]; split.
    + intro H. exists a. split; [reflexivity | apply String.eqb_eq, H].
    + intros (a' & Ha & Hn). injection Ha as <-. apply String.eqb_eq, Hn.
    + discriminate.
    + intros (a' & Ha & _). discriminate Ha.
  - reflexivity.
Qed.

(** What a jump to a loaded record leaves, when the name of the record is
    plain in a selector. *)
Lemma jumpToMarker_loaded (m : MarkerRecord (num := num)) (L : Layout)
    (st : MapApp) :
  JSString.plain_in_selector (nom m) = true ->
  In m (markersData st) ->
  exists st',
    jumpToMarker m L st = Returned st'
    /\ scale st' = lit 2.0
    /\ activeMarker st' = Some m
    /\ markersData st' = markersData st
    /\ markersContainer (dom st')
       = map (createMarker (Some m))
           (filter (isVisible (categorie m)) (markersData st))
    /\ tooltip_hidden (tooltip (dom st')) = false
    /\ tooltip_title (tooltip (dom st')) = nom m
    /\ searchInput (dom st') = ""
    /\ searchResults (dom st') = []
    /\ filterControls (dom st') = filterControls (dom st).
Proof.
  intros Hplain Hin. unfold jumpToMarker.
  destruct (querySelector_finds m L (set_activeMarker (Some m) st) Hplain)
    as [el Hel]; [exact Hin |].
  rewrite Hel. cbn [showTooltip].
  eexists. split; [reflexivity |].
  rewrite scale_renderMap, activeMarker_renderMap, markersData_renderMap,
    markersContainer_renderMap, tooltip_renderMap, searchInput_renderMap,
    searchResults_renderMap, filterControls_renderMap.
  repeat split.
  change (markersContainer
            (dom (renderMarkers (categorie m) (set_activeMarker (Some m) st)))
          = map (createMarker (Some m))
              (filter (isVisible (categorie m)) (markersData st))).
  rewrite markersContainer_renderMarkers. reflexivity.
Qed.

(** X13. A jump to a loaded record whose name can be pasted into the
    selector as it is (no double quote, backslash, line break or NUL in it)
    returns with that record active, the markers of its category rendered
    and its own element among them of class [active], the tooltip shown
    with its name, and the search box and the result list emptied.  It
    leaves the filter buttons as they were: the selected filter is not the
    category now rendered. *)
Theorem jumpToMarker_shows_target (m : MarkerRecord (num := num))
    (L : Layout) (st : MapApp) :
  JSString.plain_in_selector (nom m) = true ->
  In m (markersData st) ->
  exists st',
    jumpToMarker m L st = Returned st'
    /\ activeMarker st' = Some m
    /\ map marker_data (markersContainer (dom st'))
       = filter (isVisible (categorie m)) (markersData st)
    /\ (exists el,
          In el (markersContainer (dom st'))
          /\ marker_data el = m /\ class_active el = true)
    /\ tooltip_hidden (tooltip (dom st')) = false
    /\ tooltip_title (tooltip (dom st')) = nom m
    /\ searchInput (dom st') = ""
    /\ searchResults (dom st') = []
    /\ getActiveFilter st' = getActiveFilter st.
Proof.
  intros Hplain Hin.
  destruct (jumpToMarker_loaded m L st Hplain Hin)
    as (st' & Hr & _ & Ha & _ & Hc & Hh & Ht & Hi & Hs & Hf).
  exists st'. split; [exact Hr |]. split; [exact Ha |].
  rewrite Hc, marker_data_createMarker.
  split; [reflexivity |]. split.
  - exists (createMarker (Some m) m). split; [| split].
    + apply in_map, filter_In. split; [exact Hin |].
      unfold isVisible. rewrite String.eqb_refl. apply orb_true_r.
    + reflexivity.
    + cbn. apply String.eqb_refl.
  - repeat split; try assumption.
    unfold getActiveFilter. rewrite Hf. reflexivity.
Qed.

(** X14. A jump to a record whose name can be pasted into the selector as
    it is and is the name of no loaded record raises: the element lookup
    finds nothing and [showTooltip] reads the box of [null].  By then the
    record is the active marker and the markers of its category are
    rendered; scale, translation and the rendered transform are untouched,
    and the search box is not emptied. *)
Theorem jumpToMarker_unknown_raises (m : MarkerRecord (num := num))
    (L : Layout) (st : MapApp) :
  JSString.plain_in_selector (nom m) = true ->
  (forall r, In r (markersData st) -> nom r <> nom m) ->
  jumpToMarker m L st
  = Thrown (renderMarkers (categorie m) (set_activeMarker (Some m) st))
  /\ viewport (state_of (jumpToMarker m L st)) = viewport st
  /\ transform (dom (state_of (jumpToMarker m L st))) = transform (dom st)
  /\ searchInput (dom (state_of (jumpToMarker m L st))) = searchInput (dom st)
  /\ activeMarker (state_of (jumpToMarker m L st)) = Some m.
Proof.
  intros Hplain Hnone.
  assert (Hr : jumpToMarker m L st
               = Thrown (renderMarkers (categorie m)
                           (set_activeMarker (Some m) st))).
  { unfold jumpToMarker.
    replace (querySelector_data_name (nom m) L
               (renderMarkers (categorie m) (set_activeMarker (Some m) st)))
      with (Selected (@None (MarkerElement (num := num)))); [reflexivity |].
    symmetry. unfold querySelector_data_name. rewrite Hplain. f_equal.
    rewrite markersContainer_renderMarkers. apply find_all_false.
    intros el Hel. apply in_map_iff in Hel. destruct Hel as (r & <- & Hr).
    apply filter_In in Hr. destruct Hr as [Hr _].
    cbn [createMarker data_name]. apply String.eqb_neq, Hnone, Hr. }
  rewrite Hr. repeat split.
Qed.

(** X26. The condition on the name cannot be dropped.  A jump to a record
    whose name does not stand for itself in the selector, and for which the
    engine rejects the selector, raises at the lookup, before [showTooltip]
    is called: the tooltip is as it was, scale and translation are
    unchanged and the search box is not emptied - although, when the record
    is loaded, its element has just been rendered, of class [active]. *)
Theorem jumpToMarker_rejected_selector_raises (m : MarkerRecord (num := num))
    (L : Layout) (st : MapApp) :
  JSString.plain_in_selector (nom m) = false ->
  escaped_selector L (nom m) = None ->
  jumpToMarker m L st
  = Thrown (renderMarkers (categorie m) (set_activeMarker (Some m) st))
  /\ viewport (state_of (jumpToMarker m L st)) = viewport st
  /\ tooltip (dom (state_of (jumpToMarker m L st))) = tooltip (dom st)
  /\ searchInput (dom (state_of (jumpToMarker m L st))) = searchInput (dom st)
  /\ (In m (markersData st) ->
      exists el,
        In el (markersContainer (dom (state_of (jumpToMarker m L st))))
        /\ marker_data el = m /\ data_name el = nom m
        /\ class_active el = true).
Proof.
  intros Hplain Hreject.
  assert (Hr : jumpToMarker m L st
               = Thrown (renderMarkers (categorie m)
                           (set_activeMarker (Some m) st))).
  { unfold jumpToMarker, querySelector_data_name.
    rewrite Hplain, Hreject. reflexivity. }
  rewrite Hr. cbn [state_of].
  refine (conj eq_refl (conj eq_refl (conj eq_refl (conj eq_refl _)))).
  intro Hin. exists (createMarker (Some m) m).
  rewrite markersContainer_renderMarkers.
  cbn [set_activeMarker activeMarker markersData].
  refine (conj _ (conj eq_refl (conj eq_refl _))).
  - apply in_map, filter_In. split; [exact Hin |].
    unfold isVisible. rewrite String.eqb_refl. apply orb_true_r.
  - cbn. apply String.eqb_refl.
Qed.

End Markers.

Lemma jumpToMarker_rejected_selector_raises_witness :
  In (Zul_Aman (num := Q)) (markersData (session [Ironforge; Zul_Aman]))
  /\ jumpToMarker Zul_Aman layout_1000x800
       (session (num := Q) [Ironforge; Zul_Aman])
     = Thrown (renderMarkers (categorie (Zul_Aman (num := Q)))
                 (set_activeMarker (Some Zul_Aman)
                    (session (num := Q) [Ironforge; Zul_Aman])))
  /\ viewport (state_of (jumpToMarker Zul_Aman layout_1000x800
                           (session (num := Q) [Ironforge; Zul_Aman])))
     = (1.0, 0, 0).
Proof.
  split; [right; left; reflexivity |].
  destruct (jumpToMarker_rejected_selector_raises Zul_Aman layout_1000x800
              (session (num := Q) [Ironforge; Zul_Aman]) eq_refl eq_refl)
    as (Hr & Hv & _).
  split; [exact Hr | rewrite Hv; reflexivity].
Defined.

Lemma jumpToMarker_shows_target_witness :
  exists st',
    jumpToMarker Ironforge layout_1000x800
      (session (num := Q) [Ironforge; Thelsamar])
    = Returned st'
    /\ activeMarker st' = Some Ironforge
    /\ map marker_data (markersContainer (dom st')) = [Ironforge]
    /\ getActiveFilter st' = "all"%string.
Proof.
  destruct (jumpToMarker_shows_target Ironforge layout_1000x800
              (session (num := Q) [Ironforge; Thelsamar]) eq_refl)
    as (st' & Hr & Ha & Hc & _ & _ & _ & _ & _ & Hf).
  - left. reflexivity.
  - exists st'. repeat split; assumption.
Defined.

Lemma jumpToMarker_unknown_raises_witness :
  jumpToMarker Origin layout_1000x800
    (session (num := Q) [Ironforge; Thelsamar])
  = Thrown (renderMarkers (categorie (Origin (num := Q)))
              (set_activeMarker (Some Origin)
                 (session (num := Q) [Ironforge; Thelsamar])))
  /\ viewport (state_of (jumpToMarker Origin layout_1000x800
                           (session (num := Q) [Ironforge; Thelsamar])))
     = viewport (session (num := Q) [Ironforge; Thelsamar]).
Proof.
  destruct (jumpToMarker_unknown_raises Origin layout_1000x800
              (session (num := Q) [Ironforge; Thelsamar]) eq_refl)
    as (Hr & Hv & _).
  - intros r [<- | [<- | []]]; discriminate.
  - split; assumption.
Defined.

(** ** Filter buttons *)

Section Filters.

Context {num : Type} {N : JSNumber num}.

Lemma In_firstn {A : Type} (n : nat) (l : list A) (x : A) :
  In x (firstn n l) -> In x l.
Proof.
  intro H. rewrite <- (firstn_skipn n l). apply in_or_app. left. exact H.
Qed.

Lemma In_skipn {A : Type} (n : nat) (l : list A) (x : A) :
  In x (skipn n l) -> In x l.
Proof.
  intro H. rewrite <- (firstn_skipn n l). apply in_or_app. right. exact H.
Qed.

(** After [activate], the clicked button is the first and only selected
    one. *)
Lemma activate_selects (clicked : nat) (buttons : list FilterButton)
    (b : FilterButton) :
  nth_error buttons clicked = Some b ->
  find active_filter (activate clicked buttons)
  = Some {| button_text := button_text b;
            dataset_filter := dataset_filter b;
            active_filter := true |}
  /\ List.length (filter active_filter (activate clicked buttons)) = 1%nat
  /\ map dataset_filter (activate clicked buttons) = map dataset_filter buttons.
Proof.
  intro Hb. unfold activate.
  set (clear := fun btn : FilterButton =>
                  {| button_text := button_text btn;
                     dataset_filter := dataset_filter btn;
                     active_filter := false |}).
  assert (Hc : nth_error (map clear buttons) clicked = Some (clear b))
    by (rewrite nth_error_map, Hb; reflexivity).
  rewrite Hc. cbn [clear button_text dataset_filter].
  assert (Hoff : forall y, In y (map clear buttons) -> active_filter y = false).
  { intros y Hy. apply in_map_iff in Hy. destruct Hy as (x & <- & _).
    reflexivity. }
  refine (conj _ (conj _ _)).
  - apply find_after_false; [| reflexivity].
    intros y Hy. apply Hoff. eapply In_firstn, Hy.
  - rewrite filter_app. cbn [filter active_filter].
    rewrite !filter_none.
    + reflexivity.
    + intros y Hy. apply Hoff. eapply In_skipn, Hy.
    + intros y Hy. apply Hoff. eapply In_firstn, Hy.
  - rewrite map_app. cbn [map dataset_filter].
    change (dataset_filter b) with (dataset_filter (clear b)).
    rewrite <- (map_cons dataset_filter (clear b)), <- map_app.
    assert (Hsplit : (firstn clicked (map clear buttons)
                      ++ clear b :: skipn (S clicked) (map clear buttons))%list
                     = map clear buttons).
    { rewrite <- (firstn_skipn clicked (map clear buttons)) at 3.
      f_equal. clear Hoff. revert Hc. generalize (map clear buttons).
      clear Hb. induction clicked as [| n IH]; intros l Hl.
      - destruct l; [discriminate |]. injection Hl as ->. reflexivity.
      - destruct l; [discriminate |]. cbn in Hl. apply (IH _ Hl). }
    rewrite Hsplit, map_map. reflexivity.
Qed.

(** X15. A click on a filter button selects it and nothing else: the
    clicked button is the only one of class [active-filter], so
    [getActiveFilter] returns its filter; no marker is active, the tooltip
    is hidden, and the markers rendered are those visible under its filter,
    none of them of class [active]. *)
Theorem handleFilterClick_selects (clickedButton : nat) (b : FilterButton)
    (st : MapApp (num := num)) :
  nth_error (filterControls (dom st)) clickedButton = Some b ->
  getActiveFilter (handleFilterClick clickedButton (dataset_filter b) st)
  = dataset_filter b
  /\ List.length
       (filter active_filter
          (filterControls
             (dom (handleFilterClick clickedButton (dataset_filter b) st))))
     = 1%nat
  /\ activeMarker (handleFilterClick clickedButton (dataset_filter b) st)
     = None
  /\ tooltip_hidden
       (tooltip (dom (handleFilterClick clickedButton (dataset_filter b) st)))
     = true
  /\ markersContainer
       (dom (handleFilterClick clickedButton (dataset_filter b) st))
     = map (createMarker None)
         (filter (isVisible (dataset_filter b)) (markersData st)).
Proof.
  intro Hb.
  destruct (activate_selects clickedButton _ b Hb) as (Hfind & Hone & _).
  refine (conj _ (conj _ (conj _ (conj _ _)))).
  - unfold getActiveFilter, handleFilterClick.
    cbn [renderMarkers hideTooltip on_dom set_dom dom set_activeMarker
         set_markersContainer set_tooltip set_filterControls filterControls].
    rewrite Hfind. reflexivity.
  - exact Hone.
  - reflexivity.
  - reflexivity.
  - unfold handleFilterClick. rewrite markersContainer_renderMarkers.
    reflexivity.
Qed.

(** X16. Once a filter button is clicked, whatever follows short of another
    click on a filter button (pans, zooms, searches, jumps, swipes), a reset
    renders the markers visible under the filter of that button. *)
Theorem filter_survives_session (clickedButton : nat) (b : FilterButton)
    (L : Layout) (actions : list (Layout * Action))
    (st : MapApp (num := num)) :
  nth_error (filterControls (dom st)) clickedButton = Some b ->
  Forall (fun La => forall i c, snd La <> FilterClick i c) actions ->
  markersContainer
    (dom (run (((L, FilterClick clickedButton (dataset_filter b)) :: actions)
               ++ [(L, ResetView)]) st))
  = map (createMarker None)
      (filter (isVisible (dataset_filter b)) (markersData st)).
Proof.
  intros Hb Hall.
  assert (Hrun : forall xs ys (s : MapApp (num := num)),
             run (xs ++ ys) s = run ys (run xs s)).
  { induction xs as [| [L' a] xs IH]; intros ys s; [reflexivity |].
    cbn [run app]. apply IH. }
  rewrite Hrun. cbn [run step].
  rewrite (reset_after_session actions _ Hall).
  destruct (activate_selects clickedButton _ b Hb) as (Hfind & _ & _).
  assert (Hf : getActiveFilter
                 (handleFilterClick clickedButton (dataset_filter b) st)
               = dataset_filter b).
  { unfold getActiveFilter, handleFilterClick.
    cbn [renderMarkers hideTooltip on_dom set_dom dom set_activeMarker
         set_markersContainer set_tooltip set_filterControls filterControls].
    rewrite Hfind. reflexivity. }
  rewrite Hf. reflexivity.
Qed.

End Filters.

Lemma handleFilterClick_selects_witness :
  getActiveFilter
    (handleFilterClick 1 "Capitals" (session (num := Q) [Ironforge; Thelsamar]))
  = "Capitals"%string
  /\ map data_name
       (markersContainer
          (dom (handleFilterClick 1 "Capitals"
                  (session (num := Q) [Ironforge; Thelsamar]))))
     = ["Ironforge"%string].
Proof.
  destruct (handleFilterClick_selects 1
              (createFilterButton "Capitals" "Capitals")
              (session (num := Q) [Ironforge; Thelsamar]))
    as (Hf & _ & _ & _ & Hc).
  - reflexivity.
  - cbn [createFilterButton dataset_filter] in Hf, Hc.
    split; [exact Hf | rewrite Hc; reflexivity].
Defined.

Lemma filter_survives_session_witness :
  map data_name
    (markersContainer
       (dom (run (((layout_1000x800, FilterClick 1 "Capitals") :: drag_by_5)
                  ++ [(layout_1000x800, ResetView)])
               (session (num := Q) [Ironforge; Thelsamar]))))
  = ["Ironforge"%string].
Proof.
  pose proof (filter_survives_session 1
                (createFilterButton "Capitals" "Capitals")
                layout_1000x800 drag_by_5
                (session (num := Q) [Ironforge; Thelsamar])) as H.
  cbn [createFilterButton dataset_filter] in H. rewrite H.
  - reflexivity.
  - reflexivity.
  - repeat constructor; intros i c; discriminate.
Defined.

(** ** From a search result to the jump *)

(** X17. An entry of the result list whose record has a name that can be
    pasted into the selector as it is (no double quote, backslash, line
    break or NUL in it) can be jumped to: the jump that a click on the entry
    makes, from the state the search has left, finds the element and
    returns, with scale 2, that record active and the result list
    emptied. *)
Theorem search_results_can_be_jumped_to {num : Type} {N : JSNumber num}
    (st : MapApp (num := num)) (value : string) (m : MarkerRecord)
    (L : Layout) :
  In m (search st value) ->
  JSString.plain_in_selector (nom m) = true ->
  exists st',
    jumpToMarker m L (handleSearchInput (on_dom (set_searchInput value) st))
    = Returned st'
    /\ scale st' = lit 2.0
    /\ activeMarker st' = Some m
    /\ searchInput (dom st') = ""%string
    /\ searchResults (dom st') = [].
Proof.
  intros Hin Hplain.
  assert (Hdata : In m (markersData st)).
  { rewrite search_unfold in Hin.
    destruct (Nat.ltb _ _); [destruct Hin |].
    apply filter_In in Hin. apply Hin. }
  destruct (records_and_buttons_step L (SearchInput value) st) as [Hm _].
  cbn [step] in Hm. rewrite <- Hm in Hdata.
  destruct (jumpToMarker_loaded m L _ Hplain Hdata)
    as (st' & Hr & Hs & Ha & _ & _ & _ & _ & Hi & Hres & _).
  exists st'. repeat split; assumption.
Qed.

Lemma search_results_can_be_jumped_to_witness :
  In (Thelsamar (num := Q))
    (search (session [Ironforge; Origin; Thelsamar]) " IRON ")
  /\ exists st',
       jumpToMarker Thelsamar layout_1000x800
         (handleSearchInput
            (on_dom (set_searchInput " IRON ")
               (session (num := Q) [Ironforge; Origin; Thelsamar])))
       = Returned st'
       /\ activeMarker st' = Some Thelsamar.
Proof.
  assert (Hin : In (Thelsamar (num := Q))
                  (search (session [Ironforge; Origin; Thelsamar]) " IRON "))
    by (right; left; reflexivity).
  split; [exact Hin |].
  destruct (search_results_can_be_jumped_to
              (session (num := Q) [Ironforge; Origin; Thelsamar]) " IRON "
              Thelsamar layout_1000x800 Hin eq_refl)
    as (st' & Hr & _ & Ha & _).
  exists st'. split; assumption.
Defined.

(** ** Start-up *)

Section Buttons.

Import JSString.

Lemma insert_sorted_Permutation (x : string) (xs : list string) :
  Permutation (insert_sorted x xs) (x :: xs).
Proof.
  induction xs as [| y ys IH]; cbn; [reflexivity |].
  destruct (String.leb x y); [reflexivity |].
  rewrite IH. apply perm_swap.
Qed.

Lemma sort_Permutation (xs : list string) : Permutation (sort xs) xs.
Proof.
  unfold sort. induction xs as [| x xs IH]; cbn; [reflexivity |].
  rewrite insert_sorted_Permutation, IH. reflexivity.
Qed.

Lemma insert_sorted_Sorted (x : string) (xs : list string) :
  Sorted leb_true xs -> Sorted leb_true (insert_sorted x xs).
Proof.
  induction xs as [| y ys IH]; intro H; cbn.
  - repeat constructor.
  - destruct (String.leb x y) eqn:E.
    + constructor; [exact H | constructor; exact E].
    + inversion H as [| ? ? Hs Hh]; subst.
      constructor; [apply IH, Hs |].
      assert (Hyx : leb_true y x).
      { destruct (String.leb_total x y) as [H' | H']; [congruence | exact H']. }
      destruct ys as [| z zs]; cbn.
      * constructor. exact Hyx.
      * destruct (String.leb x z); constructor; [exact Hyx |].
        inversion Hh; assumption.
Qed.

Lemma sort_Sorted (xs : list string) : Sorted leb_true (sort xs).
Proof.
  unfold sort. induction xs as [| x xs IH]; cbn; [constructor |].
  apply insert_sorted_Sorted, IH.
Qed.

(** The elements [distinct] has seen so far stay, in their order, and each
    further element joins them once. *)
Lemma distinct_from (xs seen : list string) :
  NoDup seen ->
  NoDup
    (fold_left
       (fun seen x =>
          if existsb (String.eqb x) seen then seen else (seen ++ [x])%list)
       xs seen)
  /\ (forall y,
        In y
          (fold_left
             (fun seen x =>
                if existsb (String.eqb x) seen then seen
                else (seen ++ [x])%list)
             xs seen)
        <-> In y seen \/ In y xs).
Proof.
  revert seen. induction xs as [| x xs IH]; intros seen Hnd; cbn [fold_left].
  - split; [exact Hnd |]. intro y. cbn. tauto.
  - destruct (existsb (String.eqb x) seen) eqn:E.
    + destruct (IH seen Hnd) as [H1 H2]. split; [exact H1 |].
      intro y. rewrite H2. cbn. split; [tauto |].
      intros [H | [<- | H]]; auto.
      left. apply existsb_exists in E. destruct E as (z & Hz & Hxz).
      apply String.eqb_eq in Hxz. subst z. exact Hz.
    + assert (Hx : ~ In x seen).
      { intro Hin. apply Bool.not_true_iff_false in E. apply E.
        apply existsb_exists. exists x. split; [exact Hin |].
        apply String.eqb_refl. }
      assert (Hnd' : NoDup (seen ++ [x])%list).
      { apply NoDup_app; [exact Hnd | repeat constructor; intros [] |].
        intros y Hy [<- | []]. exact (Hx Hy). }
      destruct (IH _ Hnd') as [H1 H2]. split; [exact H1 |].
      intro y. rewrite H2, in_app_iff. cbn. tauto.
Qed.

Lemma distinct_spec (xs : list string) :
  NoDup (distinct xs) /\ forall y, In y (distinct xs) <-> In y xs.
Proof.
  destruct (distinct_from xs [] (NoDup_nil _)) as [H1 H2].
  split; [exact H1 |]. intro y. unfold distinct. rewrite H2. cbn. tauto.
Qed.

End Buttons.

(** X18. Start-up, in a document whose filter bar is empty.  The bar gets
    the button ['Tout'] of filter ['all'], selected, followed by one button
    per category of the records, labelled with it: every category has its
    button, no category has two, and they are in ascending order.  The view
    is at scale 1 and translation (0,0) - and no marker is rendered yet:
    [init] never calls [renderMarkers]. *)
Theorem start_up {num : Type} {N : JSNumber num}
    (records : list (MarkerRecord (num := num))) (d : Dom) :
  filterControls d = [] ->
  map dataset_filter (filterControls (dom (new_MapApp records d)))
  = "all"%string :: JSString.sort (JSString.distinct (map categorie records))
  /\ map button_text (filterControls (dom (new_MapApp records d)))
     = "Tout"%string
       :: JSString.sort (JSString.distinct (map categorie records))
  /\ getActiveFilter (new_MapApp records d) = "all"%string
  /\ (forall c,
        In c (JSString.sort (JSString.distinct (map categorie records)))
        <-> exists m, In m records /\ categorie m = c)
  /\ NoDup (JSString.sort (JSString.distinct (map categorie records)))
  /\ Sorted leb_true
       (JSString.sort (JSString.distinct (map categorie records)))
  /\ viewport (new_MapApp records d) = (lit 1.0, lit 0, lit 0)
  /\ markersContainer (dom (new_MapApp records d)) = markersContainer d.
Proof.
  intro Hd.
  assert (Hb : filterControls (dom (new_MapApp records d))
               = {| button_text := "Tout"; dataset_filter := "all";
                    active_filter := true |}
                 :: map (fun cat => createFilterButton cat cat)
                      (JSString.sort
                         (JSString.distinct (map categorie records)))).
  { unfold new_MapApp, createFilterButtons.
    cbn [on_dom set_dom set_filterControls dom filterControls
         createFilterButton button_text dataset_filter].
    rewrite forEach_appendChild_map, filterControls_renderMap,
      markersData_renderMap.
    cbn [dom filterControls markersData]. rewrite Hd. reflexivity. }
  destruct (distinct_spec (map categorie records)) as [Hnd Hin].
  refine (conj _ (conj _ (conj _ (conj _ (conj _ (conj _ (conj _ _))))))).
  - rewrite Hb. cbn [map dataset_filter]. rewrite map_map.
    cbn [createFilterButton dataset_filter]. rewrite map_id. reflexivity.
  - rewrite Hb. cbn [map button_text]. rewrite map_map.
    cbn [createFilterButton button_text]. rewrite map_id. reflexivity.
  - unfold getActiveFilter. rewrite Hb. reflexivity.
  - intro c. split.
    + intro Hc. apply (Permutation_in c (sort_Permutation _)) in Hc.
      apply Hin, in_map_iff in Hc. destruct Hc as (m & H1 & H2).
      exists m. auto.
    + intros (m & H1 & H2).
      apply (Permutation_in c (Permutation_sym (sort_Permutation _))).
      apply Hin, in_map_iff. exists m. auto.
  - apply (Permutation_NoDup (Permutation_sym (sort_Permutation _))), Hnd.
  - apply sort_Sorted.
  - unfold new_MapApp, createFilterButtons, viewport.
    cbn [on_dom set_dom scale translateX translateY].
    rewrite scale_renderMap, translateX_renderMap, translateY_renderMap.
    reflexivity.
  - unfold new_MapApp, createFilterButtons.
    cbn [on_dom set_dom set_filterControls dom markersContainer].
    rewrite markersContainer_renderMap. reflexivity.
Qed.

Lemma start_up_witness :
  map dataset_filter
    (filterControls
       (dom (new_MapApp (num := Q) [Thelsamar; Ironforge; Origin; Ironforge]
               blank_document)))
  = ["all"; "Capitals"; "Corners"; "Towns"]%string.
Proof.
  destruct (start_up (num := Q) [Thelsamar; Ironforge; Origin; Ironforge]
              blank_document) as [H _].
  - reflexivity.
  - rewrite H. reflexivity.
Defined.

(** ** A failed load *)




(** ** The tooltip *)

(** X20. The tooltip does not leave the wrapper on the right.  For a marker
    element whose box starts no further right than 10 pixels past the
    wrapper's right edge, [showTooltip] returns with the tooltip shown, its
    top 10 pixels below the marker's box, and its left such that the 300
    pixels it allows for the tooltip end inside the wrapper: it is placed
    right of the marker when that fits, and otherwise 310 pixels left of
    the marker's left edge, wherever that is. *)
Theorem showTooltip_fits_on_the_right (data : MarkerRecord (num := Q))
    (el : MarkerElement) (L : Layout) (st : MapApp) :
  rect_left (marker_rect L el) - rect_left (mapWrapper_rect L)
    <= rect_width (mapWrapper_rect L) + 10 ->
  exists st',
    showTooltip data (Some el) L st = Returned st'
    /\ tooltip_hidden (tooltip (dom st')) = false
    /\ tooltip_title (tooltip (dom st')) = nom data
    /\ tooltip_top (tooltip (dom st'))
       == rect_top (marker_rect L el) - rect_top (mapWrapper_rect L)
          + rect_height (marker_rect L el) + 10
    /\ tooltip_left (tooltip (dom st')) + 300 <= rect_width (mapWrapper_rect L)
    /\ (tooltip_left (tooltip (dom st'))
        == rect_left (marker_rect L el) - rect_left (mapWrapper_rect L)
           + rect_width (marker_rect L el) + 10
        \/ tooltip_left (tooltip (dom st'))
           == rect_left (marker_rect L el) - rect_left (mapWrapper_rect L)
              - 310).
Proof.
  intro Hleft. unfold showTooltip. eexists. split; [reflexivity |].
  cbn [on_dom set_dom set_tooltip dom tooltip tooltip_hidden tooltip_title
       tooltip_top tooltip_left].
  unfold style_number. js_Q.
  destruct (Qltb (rect_width (mapWrapper_rect L))
              (rect_left (marker_rect L el) - rect_left (mapWrapper_rect L)
               + rect_width (marker_rect L el) + 10 + 300)) eqn:E.
  - apply Qltb_true in E.
    repeat split; try reflexivity; try lra; right; lra.
  - apply Qltb_false in E.
    repeat split; try reflexivity; try lra; left; reflexivity.
Qed.

Lemma showTooltip_fits_on_the_right_witness :
  exists st',
    showTooltip Ironforge
      (Some (createMarker None (Ironforge (num := Q))))
      (wrapper_layout 1000 800 (container_at_rest 1000 800))
      (session (num := Q) [Ironforge])
    = Returned st'
    /\ tooltip_left (tooltip (dom st')) + 300 <= 1000.
Proof.
  destruct (showTooltip_fits_on_the_right Ironforge
              (createMarker None Ironforge)
              (wrapper_layout 1000 800 (container_at_rest 1000 800))
              (session (num := Q) [Ironforge]))
    as (st' & Hr & _ & _ & _ & Hfit & _).
  - vm_compute. discriminate.
  - exists st'. split; [exact Hr | exact Hfit].
Defined.

(** ** The swipe *)

(** X21. The separator follows the pointer: over a wrapper of positive
    width the swipe percent does not decrease when the pointer moves
    right. *)
Theorem swipePercent_monotone (L : Layout (num := Q)) (x1 x2 : Q) :
  0 < rect_width (mapWrapper_rect L) ->
  x1 <= x2 ->
  swipePercent L x1 <= swipePercent L x2.
Proof.
  intros Hw Hx. unfold swipePercent. js_Q.
  apply Qmult_le_compat_r; [| lra].
  unfold Qdiv. apply Qmult_le_compat_r.
  - apply Q.max_le_compat_l, Q.min_le_compat_l. lra.
  - apply Qlt_le_weak, Qinv_lt_0_compat, Hw.
Qed.

Lemma swipePercent_monotone_witness :
  swipePercent (num := Q) layout_1000x800 250
  <= swipePercent layout_1000x800 750.
Proof.
  apply (swipePercent_monotone layout_1000x800 250 750).
  - reflexivity.
  - vm_compute. discriminate.
Defined.

(** ** What a search does not depend on *)

Section Normalisation.

Import JSString.
Local Open Scope string_scope.

Lemma trimStart_starts_clean (s : string) : starts_clean (trimStart s).
Proof.
  induction s as [| c s IH]; cbn; [exact I |].
  destruct (is_space c) eqn:E; [exact IH | exact E].
Qed.

Lemma trimStart_clean (s : string) : starts_clean s -> trimStart s = s.
Proof.
  destruct s as [| c s]; cbn; [reflexivity |]. intros ->. reflexivity.
Qed.

Lemma trimEnd_starts_clean (s : string) :
  starts_clean s -> starts_clean (trimEnd s).
Proof.
  destruct s as [| c s]; cbn; [exact (fun H => H) |]. intro E.
  destruct (trimEnd s); [rewrite E |]; exact E.
Qed.

Lemma trimEnd_idempotent (s : string) : trimEnd (trimEnd s) = trimEnd s.
Proof.
  induction s as [| c s IH]; cbn; [reflexivity |].
  destruct (trimEnd s) as [| c' t] eqn:E.
  - destruct (is_space c) eqn:Ec; cbn; [reflexivity |].
    rewrite Ec. reflexivity.
  - change (trimEnd (String c (String c' t)))
      with (match trimEnd (String c' t) with
            | EmptyString =>
                if is_space c then EmptyString else String c EmptyString
            | String a t0 => String c (String a t0)
            end).
    rewrite IH. reflexivity.
Qed.

Lemma trim_idempotent (s : string) : trim (trim s) = trim s.
Proof.
  unfold trim.
  rewrite (trimStart_clean (trimEnd (trimStart s))).
  - apply trimEnd_idempotent.
  - apply trimEnd_starts_clean, trimStart_starts_clean.
Qed.

Lemma trimStart_suffix (s : string) : exists pre, s = pre ++ trimStart s.
Proof.
  induction s as [| c s [pre IH]]; cbn.
  - exists "". reflexivity.
  - destruct (is_space c).
    + exists (String c pre). cbn. rewrite <- IH. reflexivity.
    + exists "". reflexivity.
Qed.

Lemma trimEnd_prefix (s : string) : exists post, s = trimEnd s ++ post.
Proof.
  induction s as [| c s [post IH]]; cbn.
  - exists "". reflexivity.
  - destruct (trimEnd s) as [| c' t].
    + destruct (is_space c).
      * exists (String c s). reflexivity.
      * exists post. cbn. rewrite IH at 1. reflexivity.
    + exists post. cbn. rewrite IH at 1. reflexivity.
Qed.

(** A string contains its trimmed form. *)
Lemma includes_trim (s : string) : includes s (trim s) = true.
Proof.
  apply includes_spec. unfold Substring, trim.
  destruct (trimStart_suffix s) as [pre Hpre].
  destruct (trimEnd_prefix (trimStart s)) as [post Hpost].
  exists pre, post. rewrite <- Hpost. exact Hpre.
Qed.

Context {num : Type} {N : JSNumber num}.

(** X22. The result of a search does not depend on the case of the query
    nor on the white space around it: the query, its lowered form and its
    trimmed form list the same records. *)
Theorem search_ignores_case_and_outer_space (st : MapApp (num := num))
    (value : string) :
  search st (toLowerCase value) = search st value
  /\ search st (trim value) = search st value
  /\ search st (trim (toLowerCase value)) = search st value.
Proof.
  rewrite !search_unfold.
  rewrite toLowerCase_idempotent.
  rewrite (trim_toLowerCase (trim value)), trim_idempotent.
  rewrite (trim_toLowerCase (trim (toLowerCase value))), trim_idempotent.
  rewrite <- (trim_toLowerCase (toLowerCase value)), toLowerCase_idempotent.
  rewrite <- trim_toLowerCase.
  repeat split.
Qed.

(** X23. A record is found by its name and by its position label: for a
    loaded record, the query made of its whole name, or of its whole label,
    lists it, provided that text has at least 2 characters between its
    outer white space. *)
Theorem search_finds_by_name_or_label (st : MapApp (num := num))
    (m : MarkerRecord) :
  In m (markersData st) ->
  ((2 <= String.length (trim (nom m)))%nat -> In m (search st (nom m)))
  /\ ((2 <= String.length (trim (position_approx m)))%nat ->
      In m (search st (position_approx m))).
Proof.
  intro Hin. split; intro Hlen.
  - rewrite search_unfold, trim_toLowerCase, length_toLowerCase.
    destruct (Nat.ltb_spec (String.length (trim (nom m))) 2); [lia |].
    apply filter_In. split; [exact Hin |].
    unfold matchesQuery. rewrite <- trim_toLowerCase, includes_trim.
    reflexivity.
  - rewrite search_unfold, trim_toLowerCase, length_toLowerCase.
    destruct (Nat.ltb_spec (String.length (trim (position_approx m))) 2);
      [lia |].
    apply filter_In. split; [exact Hin |].
    unfold matchesQuery. rewrite <- trim_toLowerCase, includes_trim.
    apply orb_true_r.
Qed.

End Normalisation.

Lemma search_finds_by_name_or_label_witness :
  In (Thelsamar (num := Q))
    (search (session [Ironforge; Thelsamar]) "Thelsamar")
  /\ In (Thelsamar (num := Q))
       (search (session [Ironforge; Thelsamar])
          "near the Ironband Excavation").
Proof.
  destruct (search_finds_by_name_or_label
              (session (num := Q) [Ironforge; Thelsamar]) Thelsamar)
    as [Hn Hl].
  - right. left. reflexivity.
  - split; [apply Hn | apply Hl]; vm_compute; lia.
Defined.

(** ** Gestures *)

Section Gestures.

Context {num : Type} {N : JSNumber num}.

Lemma drag_along_idle (path : list (num * num)) (st : MapApp (num := num)) :
  isDragging st = false -> drag_along path st = st.
Proof.
  intro Hd. induction path as [| p path IH]; [reflexivity |].
  unfold drag_along. cbn [fold_left]. unfold handlePanMove at 2.
  rewrite Hd. cbn [negb state_of]. exact IH.
Qed.

(** X24. Mouse moves pan only during a drag: after [handlePanEnd], and
    after a press on the swipe separator in a state with no drag in
    progress, any number of moves leaves the state as it is. *)
Theorem moves_outside_a_drag_change_nothing (path : list (num * num))
    (e : PointerEvent) (st : MapApp (num := num)) :
  drag_along path (handlePanEnd st) = handlePanEnd st
  /\ (target_id e = "overlay-separator"%string ->
      isDragging st = false ->
      drag_along path (state_of (handlePanStart e st)) = st).
Proof.
  split.
  - apply drag_along_idle. reflexivity.
  - intros He Hd. unfold handlePanStart. rewrite He.
    rewrite String.eqb_refl. cbn [state_of]. apply drag_along_idle, Hd.
Qed.

(** X25. Pan and swipe exclude each other.  With neither gesture in
    progress, and a move event (heard by the pan listeners and by the swipe
    listeners) whose horizontal position the handlers read as [x] (a touch,
    or a mouse whose [clientX] is not 0) and at which the swipe percent is a
    finite number (it is over a wrapper of positive width): a press on the
    separator followed by the move sets the clip and the separator to the
    percent of [x] and leaves the viewport alone; a press on the map
    followed by the move leaves the clip and the separator alone. *)
Theorem pan_and_swipe_exclude (down move : PointerEvent) (x : num)
    (L : Layout) (st : MapApp (num := num)) :
  isDragging st = false ->
  isSwiping (dom st) = false ->
  clientX_or_touch move = Some x ->
  swipePercent_is_finite L x = true ->
  (target_id down = "overlay-separator"%string ->
   viewport
     (run [(L, PanStart down); (L, SwipeStart); (L, PanMove move);
           (L, Swipe move)] st)
   = viewport st
   /\ clip_percent
        (dom (run [(L, PanStart down); (L, SwipeStart); (L, PanMove move);
                   (L, Swipe move)] st))
      = Some (swipePercent L x)
   /\ separator_left
        (dom (run [(L, PanStart down); (L, SwipeStart); (L, PanMove move);
                   (L, Swipe move)] st))
      = Some (swipePercent L x))
  /\ (target_id down <> "overlay-separator"%string ->
      clip_percent
        (dom (run [(L, PanStart down); (L, PanMove move); (L, Swipe move)] st))
      = clip_percent (dom st)
      /\ separator_left
           (dom (run [(L, PanStart down); (L, PanMove move); (L, Swipe move)]
                   st))
         = separator_left (dom st)).
Proof.
  intros Hd Hs Hx Hfinite. split.
  - intro Ht. cbn [run step]. unfold handlePanStart.
    rewrite Ht, String.eqb_refl. cbn [state_of].
    unfold handlePanMove.
    cbn [startSwipe on_dom set_dom isDragging set_isSwiping set_grabbing
         set_separator_background].
    rewrite Hd. cbn [negb state_of].
    unfold onSwipe. cbn [dom isSwiping negb]. rewrite Hx, Hfinite.
    repeat split.
  - intro Ht. apply String.eqb_neq in Ht. cbn [run step].
    assert (Hsw : forall s : MapApp (num := num),
               isSwiping (dom s) = false ->
               state_of (onSwipe move L s) = s).
    { intros s H. unfold onSwipe. rewrite H. reflexivity. }
    assert (Hpan : forall (ev : PointerEvent) (s : MapApp (num := num)),
               isSwiping (dom (state_of (handlePanMove ev s)))
               = isSwiping (dom s)
               /\ clip_percent (dom (state_of (handlePanMove ev s)))
                  = clip_percent (dom s)
               /\ separator_left (dom (state_of (handlePanMove ev s)))
                  = separator_left (dom s)).
    { intros ev s. unfold handlePanMove. destruct (negb _); [auto |].
      destruct (clientX_or_touch ev); [| auto].
      destruct (clientY_or_touch ev); [| auto].
      cbn [state_of hideTooltip on_dom set_dom set_tooltip dom isSwiping
           clip_percent separator_left].
      rewrite isSwiping_renderMap, clip_percent_renderMap,
        separator_left_renderMap.
      auto. }
    assert (Hstart : isSwiping (dom (state_of (handlePanStart down st)))
                     = isSwiping (dom st)
                     /\ clip_percent (dom (state_of (handlePanStart down st)))
                        = clip_percent (dom st)
                     /\ separator_left
                          (dom (state_of (handlePanStart down st)))
                        = separator_left (dom st)).
    { unfold handlePanStart. rewrite Ht.
      destruct (clientX_or_touch down); [| auto].
      destruct (clientY_or_touch down); auto. }
    destruct Hstart as (S1 & S2 & S3).
    destruct (Hpan move (state_of (handlePanStart down st))) as (P1 & P2 & P3).
    rewrite Hsw by (rewrite P1, S1; exact Hs).
    rewrite P2, P3, S2, S3. split; reflexivity.
Qed.

End Gestures.

Lemma pan_and_swipe_exclude_witness :
  clip_percent
    (dom (run [(layout_1000x800,
                PanStart (MouseEvent "overlay-separator" 500 300));
               (layout_1000x800, SwipeStart);
               (layout_1000x800, PanMove (MouseEvent "" 250 300));
               (layout_1000x800, Swipe (MouseEvent "" 250 300))]
            (session (num := Q) [])))
  = Some (swipePercent layout_1000x800 250).
Proof.
  pose proof (pan_and_swipe_exclude
                (MouseEvent "overlay-separator" 500 300)
                (MouseEvent "" 250 300) 250 layout_1000x800
                (session (num := Q) []) eq_refl eq_refl eq_refl eq_refl)
    as [H _].
  destruct (H eq_refl) as (_ & Hc & _). exact Hc.
Defined.
